(** * Multi-level paging simulator: a shallow embedding and its properties

    The development follows [paging-multilevel-translate.py]: the class [OS]
    with its physical memory, its bitmap of used frames, its table of
    page-directory base registers, the frame allocator [findFree], the
    directory initialiser [initPageDir], the read-only walk [translate], the
    lazily allocating walk [allocVirtualPage] and the driver [procAlloc].

    Python integers are unbounded, so every integer is a [Z] and the bit
    operators [&], [|], [<<], [>>] are [Z.land], [Z.lor], [Z.shiftl],
    [Z.shiftr].  Python lists are [list Z] accessed through [getitem] and
    [setitem], which keep Python's negative indices and its [IndexError].
    The dictionary [pdbr] is a [gmap Z Z].  The module-level random generator
    is an arbitrary sequence of draws together with a cursor. *)

From Stdlib Require Import ZArith List Lia Bool.
From stdpp Require Import base numbers list gmap.

Local Open Scope Z_scope.

(** ** Exceptions and results *)

Inductive exn : Type :=
  | KeyError            (* dictionary lookup of an absent key *)
  | IndexError          (* list index out of range, choice from an empty list *)
  | UnboundLocalError   (* a local variable read before assignment *)
  | Diverged.           (* a [while] loop that used up its fuel *)

Inductive result (A : Type) : Type :=
  | Ok (a : A)
  | Raise (e : exn).
Arguments Ok {A} a.
Arguments Raise {A} e.

(** ** Python list indexing *)

Module PyList.

(** The position denoted by a Python index: [0 <= i < len] is itself,
    [-len <= i < 0] counts from the end, anything else is out of range. *)
Definition position {A} (l : list A) (i : Z) : option nat :=
  let n := Z.of_nat (length l) in
  if (0 <=? i) && (i <? n) then Some (Z.to_nat i)
  else if (- n <=? i) && (i <? 0) then Some (Z.to_nat (i + n))
  else None.

Definition getitem {A} (l : list A) (i : Z) : result A :=
  match position l i with
  | Some k => match l !! k with Some x => Ok x | None => Raise IndexError end
  | None => Raise IndexError
  end.

Definition setitem {A} (l : list A) (i : Z) (x : A) : result (list A) :=
  match position l i with
  | Some k => Ok (<[k:=x]> l)
  | None => Raise IndexError
  end.

End PyList.
Import PyList.

(** ** The simulated machine *)

(** [OS.__init__]: the configuration constants. *)
Definition pageSize : Z := 32.
Definition physPages : Z := 128.
Definition physMem : Z := pageSize * physPages.
Definition vaPages : Z := 1024.
Definition vaSize : Z := pageSize * vaPages.
Definition pteSize : Z := 1.
Definition pageBits : Z := 5.

Definition L0_MASK : Z := 0xF800.
Definition L0_SHIFT : Z := 15.
Definition PDE_MASK : Z := 0x07C0.
Definition PDE_SHIFT : Z := 10.
Definition PTE_MASK : Z := 0x003E.
Definition PTE_SHIFT : Z := 5.
Definition OFFSET_MASK : Z := 0x001F.

(** The mutable fields of [OS], and the state of the [random] module:
    [random s k] is the [k]-th draw of the generator and [drawn s] the number
    of draws consumed so far. *)
Record OS : Type := mkOS {
  levels : Z;
  usedPages : list Z;
  memory : list Z;
  pdbr : gmap Z Z;
  random : nat -> Z;
  drawn : nat
}.

Definition OS_init (lv : Z) (rnd : nat -> Z) : OS :=
  {| levels := lv;
     usedPages := replicate (Z.to_nat physPages) 0;
     memory := replicate (Z.to_nat physMem) 0;
     pdbr := ∅;
     random := rnd;
     drawn := 0 |}.

Definition with_usedPages (s : OS) (u : list Z) : OS :=
  {| levels := levels s; usedPages := u; memory := memory s;
     pdbr := pdbr s; random := random s; drawn := drawn s |}.

Definition with_memory (s : OS) (m : list Z) : OS :=
  {| levels := levels s; usedPages := usedPages s; memory := m;
     pdbr := pdbr s; random := random s; drawn := drawn s |}.

Definition with_pdbr (s : OS) (p : gmap Z Z) : OS :=
  {| levels := levels s; usedPages := usedPages s; memory := memory s;
     pdbr := p; random := random s; drawn := drawn s |}.

Definition with_drawn (s : OS) (k : nat) : OS :=
  {| levels := levels s; usedPages := usedPages s; memory := memory s;
     pdbr := pdbr s; random := random s; drawn := k |}.

(** ** The monad of the mutating methods: state and exceptions *)

Definition M (A : Type) : Type := OS -> result (A * OS).

Definition ret {A} (a : A) : M A := fun s => Ok (a, s).

Definition bind {A B} (m : M A) (f : A -> M B) : M B :=
  fun s => match m s with
           | Ok (a, s') => f a s'
           | Raise e => Raise e
           end.

Definition raise {A} (e : exn) : M A := fun _ => Raise e.

Definition lift {A} (r : result A) : M A :=
  fun s => match r with Ok a => Ok (a, s) | Raise e => Raise e end.

Notation "x <- m ;; k" := (bind m (fun x => k))
  (at level 100, m at next level, right associativity).
Notation "m ;;; k" := (bind m (fun _ => k))
  (at level 100, right associativity).

(** A local variable that a branch may have left unassigned. *)
Definition local {A} (v : option A) : M A :=
  match v with Some a => ret a | None => raise UnboundLocalError end.

(** [self.memory[i]] and [self.memory[i] = v]. *)
Definition memget (i : Z) : M Z := fun s => lift (getitem (memory s) i) s.

Definition memset (i v : Z) : M unit :=
  fun s => match setitem (memory s) i v with
           | Ok m => Ok (tt, with_memory s m)
           | Raise e => Raise e
           end.

(** [self.levels]. *)
Definition self_levels : M Z := fun s => Ok (levels s, s).

(** [self.pdbr[pid]]. *)
Definition pdbr_get (pid : Z) : M Z :=
  fun s => match pdbr s !! pid with
           | Some r => Ok (r, s)
           | None => Raise KeyError
           end.

(** [for x in xs: body(x)]. *)
Fixpoint for_each {A} (xs : list A) (body : A -> M unit) : M unit :=
  match xs with
  | [] => ret tt
  | x :: xs' => body x ;;; for_each xs' body
  end.

(** ** The [random] module *)

(** One draw of the generator, reduced to [[0, n)]. *)
Definition randbelow (n : Z) : M Z :=
  fun s => Ok (random s (drawn s) mod n, with_drawn s (S (drawn s))).

(** [random.choice(seq)]. *)
Definition choice (seq : list Z) : M Z :=
  match seq with
  | [] => raise IndexError
  | _ => k <- randbelow (Z.of_nat (length seq)) ;; lift (getitem seq k)
  end.

(** [random.randint(a, b)], both ends included. *)
Definition randint (a b : Z) : M Z :=
  k <- randbelow (b - a + 1) ;; ret (a + k).

(** ** [OS.findFree] *)

(** [[i for i in range(...) if usedPages[i] == 0]] over the indices [idxs]. *)
Fixpoint freePages (used : list Z) (idxs : list Z) : result (list Z) :=
  match idxs with
  | [] => Ok []
  | i :: idxs' =>
      match getitem used i with
      | Raise e => Raise e
      | Ok u =>
          match freePages used idxs' with
          | Raise e => Raise e
          | Ok r => Ok (if u =? 0 then i :: r else r)
          end
      end
  end.

Definition findFree : M Z :=
  fun s =>
    (free <- lift (freePages (usedPages s) (seqZ 0 physPages)) ;;
     freePage <- choice free ;;
     (fun s' => match setitem (usedPages s') freePage 1 with
                | Ok u => Ok (freePage, with_usedPages s' u)
                | Raise e => Raise e
                end)) s.

(** ** [OS.initPageDir] *)

Definition initPageDir (whichPage : Z) : M unit :=
  let whichByte := Z.shiftl whichPage pageBits in
  for_each (seqZ whichByte pageSize) (fun i => memset i 0x7F).

(** ** [OS.translate] *)

(** The walk is read-only; its model returns, next to the outcome, the list
    of the indices at which [self.memory] was read, in order. *)
Definition Walk (A : Type) : Type := (list Z * result A)%type.

Definition wret {A} (a : A) : Walk A := ([], Ok a).

Definition wbind {A B} (m : Walk A) (f : A -> Walk B) : Walk B :=
  match m with
  | (t, Ok a) => let '(t', r) := f a in (t ++ t', r)
  | (t, Raise e) => (t, Raise e)
  end.

Notation "x <~ m ;; k" := (wbind m (fun x => k))
  (at level 100, m at next level, right associativity).

Definition fetch (s : OS) (i : Z) : Walk Z := ([i], getitem (memory s) i).

Definition root_of (s : OS) (pid : Z) : Walk Z :=
  match pdbr s !! pid with
  | Some r => wret r
  | None => ([], Raise KeyError)
  end.

Definition wlocal {A} (v : option A) : Walk A :=
  match v with Some a => wret a | None => ([], Raise UnboundLocalError) end.

(** The three index fields and the offset, as the code computes them. *)
Definition l0Index (a : Z) : Z := Z.shiftr (Z.land a L0_MASK) L0_SHIFT.
Definition l1Index (a : Z) : Z := Z.shiftr (Z.land a PDE_MASK) PDE_SHIFT.
Definition l2Index (a : Z) : Z := Z.shiftr (Z.land a PTE_MASK) PTE_SHIFT.
Definition offsetOf (a : Z) : Z := Z.land a OFFSET_MASK.

(** [(entry & 0x80) >> 7] and [entry & 0x7F]. *)
Definition validBit (entry : Z) : Z := Z.shiftr (Z.land entry 0x80) 7.
Definition framePtr (entry : Z) : Z := Z.land entry 0x7F.

(** Level 2 lookup and the composition of the physical address. *)
Definition translate_L2 (s : OS) (pid virtualAddr : Z) (l2Ptr : option Z) : Walk Z :=
  let l2Bits := l2Index virtualAddr in
  base <~ (if 2 <=? levels s then wlocal l2Ptr else root_of s pid) ;;
  let l2Addr := Z.shiftl base pageBits + l2Bits in
  l2Entry <~ fetch s l2Addr ;;
  let l2Valid := validBit l2Entry in
  let pfn := framePtr l2Entry in
  if negb (l2Valid =? 1) then wret (-1)
  else
    let offset := offsetOf virtualAddr in
    wret (Z.lor (Z.shiftl pfn pageBits) offset).

(** Level 1 lookup, skipped when [levels < 2]. *)
Definition translate_L1 (s : OS) (pid virtualAddr : Z) (l1Ptr : option Z) : Walk Z :=
  if 2 <=? levels s then
    let l1Bits := l1Index virtualAddr in
    base <~ (if levels s =? 3 then wlocal l1Ptr else root_of s pid) ;;
    let l1Addr := Z.shiftl base pageBits + l1Bits in
    l1Entry <~ fetch s l1Addr ;;
    let l1Valid := validBit l1Entry in
    let l2Ptr := framePtr l1Entry in
    if negb (l1Valid =? 1) then wret (-2)
    else translate_L2 s pid virtualAddr (Some l2Ptr)
  else translate_L2 s pid virtualAddr None.

(** Level 0 lookup, skipped when [levels < 3]. *)
Definition translate (s : OS) (pid virtualAddr : Z) : Walk Z :=
  if 3 <=? levels s then
    let level0Bits := l0Index virtualAddr in
    root <~ root_of s pid ;;
    let l0Addr := Z.shiftl root pageBits in
    l0Entry <~ fetch s (l0Addr + level0Bits) ;;
    let l0Valid := validBit l0Entry in
    let l1Ptr := framePtr l0Entry in
    if negb (l0Valid =? 1) then wret (-3)
    else translate_L1 s pid virtualAddr (Some l1Ptr)
  else translate_L1 s pid virtualAddr None.

(** The outcome and the reads of a walk. *)
Definition outcome (s : OS) (pid virtualAddr : Z) : result Z :=
  snd (translate s pid virtualAddr).
Definition reads (s : OS) (pid virtualAddr : Z) : list Z :=
  fst (translate s pid virtualAddr).

(** ** [OS.allocVirtualPage] *)

Definition allocVirtualPage (pid virtualPage physicalPage : Z) : M unit :=
  lv <- self_levels ;;
  l1Page <- (if 3 <=? lv then
               root <- pdbr_get pid ;;
               let l0Addr := Z.shiftl root pageBits in
               let l0Index := l0Index virtualPage in
               l0Entry <- memget (l0Addr + l0Index) ;;
               if Z.land l0Entry 0x80 =? 0 then
                 l1Page <- findFree ;;
                 memset (l0Addr + l0Index) (Z.lor 0x80 l1Page) ;;;
                 initPageDir l1Page ;;;
                 ret (Some l1Page)
               else ret (Some (Z.land l0Entry 0x7F))
             else ret None) ;;
  base <- (if lv =? 3 then local l1Page else pdbr_get pid) ;;
  let l1Addr := Z.shiftl base pageBits + l1Index virtualPage in
  l1Entry <- memget l1Addr ;;
  l2Page <- (if Z.land l1Entry 0x80 =? 0 then
               l2Page <- findFree ;;
               memset l1Addr (Z.lor 0x80 l2Page) ;;;
               initPageDir l2Page ;;;
               ret l2Page
             else ret (Z.land l1Entry 0x7F)) ;;
  let l2Addr := Z.shiftl l2Page pageBits + l2Index virtualPage in
  l2Entry <- memget l2Addr ;;
  if Z.land l2Entry 0x80 =? 0 then memset l2Addr (Z.lor 0x80 physicalPage)
  else ret tt.

(** ** [OS.procAlloc] *)

(** [while vp in allocatedVPs: vp = random.randint(0, vaPages - 1)]; the loop
    may run for ever, so the model carries fuel. *)
Fixpoint redraw (fuel : nat) (allocatedVPs : gset Z) (vp : Z) : M Z :=
  if decide (vp ∈ allocatedVPs) then
    match fuel with
    | O => raise Diverged
    | S fuel' => vp' <- randint 0 (vaPages - 1) ;; redraw fuel' allocatedVPs vp'
    end
  else ret vp.

(** The body of [for _ in range(numPages)], [n] iterations. *)
Fixpoint allocLoop (fuel : nat) (pid : Z) (n : nat) (allocatedVPs : gset Z) : M (gset Z) :=
  match n with
  | O => ret allocatedVPs
  | S n' =>
      vp0 <- randint 0 (vaPages - 1) ;;
      vp <- redraw fuel allocatedVPs vp0 ;;
      pp <- findFree ;;
      allocVirtualPage pid vp pp ;;;
      allocLoop fuel pid n' (allocatedVPs ∪ {[vp]})
  end.

(** [procAlloc] returns [list(allocatedVPs)]; the order of a Python set is
    not specified, the model lists the elements of the finite set. *)
Definition procAlloc (fuel : nat) (pid numPages : Z) : M (list Z) :=
  pageDir <- findFree ;;
  (fun s => Ok (tt, with_pdbr s (<[pid:=pageDir]> (pdbr s)))) ;;;
  initPageDir pageDir ;;;
  allocatedVPs <- allocLoop fuel pid (Z.to_nat numPages) ∅ ;;
  ret (elements allocatedVPs).

(** ** Vocabulary of the properties *)

(** The valid flag of an entry is its bit 7. *)
Definition entryValid (entry : Z) : bool := Z.testbit entry 7.

(** The bits [hi..lo] of an address, as an unsigned number. *)
Definition bitField (hi lo a : Z) : Z := Z.land (Z.shiftr a lo) (Z.ones (hi - lo + 1)).

(** The number of frames whose [usedPages] entry is still [0]. *)
Definition freeCount (used : list Z) : nat := length (filter (fun u => u = 0) used).

(** The number of frames marked used, [usedPages[i] == 1]. *)
Definition usedCount (used : list Z) : nat := length (filter (fun u => u = 1) used).

(** [n] calls of [findFree] in a row, with the frames they return. *)
Fixpoint findFreeN (n : nat) : M (list Z) :=
  match n with
  | O => ret []
  | S n' => f <- findFree ;; fs <- findFreeN n' ;; ret (f :: fs)
  end.

(** The shape invariant of [__init__]: both arrays keep their lengths. *)
Definition shaped (s : OS) : Prop :=
  length (usedPages s) = Z.to_nat physPages /\
  length (memory s) = Z.to_nat physMem.

(** The program's pattern of use: set the machine up, then translate. *)
Definition then_translate {A} (setup : M A) (pid virtualAddr : Z) (s0 : OS) : result Z :=
  match setup s0 with
  | Ok (_, s) => outcome s pid virtualAddr
  | Raise e => Raise e
  end.

(** The state a program leaves, when it returns. *)
Definition final {A} (prog : M A) (s0 : OS) : option OS :=
  match prog s0 with
  | Ok (_, s) => Some s
  | Raise _ => None
  end.

(** The 32 entries of the frame [p]. *)
Definition page (m : list Z) (p : Z) : list Z :=
  take (Z.to_nat pageSize) (drop (Z.to_nat (p * pageSize)) m).

(** The valid entries of a directory frame, and the frames they point to. *)
Definition validEntries (m : list Z) (p : Z) : list Z :=
  filter (fun e => entryValid e = true) (page m p).
Definition validPtrs (m : list Z) (p : Z) : list Z :=
  framePtr <$> validEntries m p.

(** The page-table tree below a root: the distinct level-1 directories, the
    distinct level-2 tables, and the valid leaf entries, one per mapped page. *)
Definition l1Dirs (m : list Z) (root : Z) : list Z :=
  remove_dups (validPtrs m root).
Definition l2Dirs (m : list Z) (root : Z) : list Z :=
  remove_dups (l1Dirs m root ≫= validPtrs m).
Definition mappedPages (m : list Z) (root : Z) : list Z :=
  l2Dirs m root ≫= validEntries m.

(** The census of a process: the frames marked used, the level-1
    directories, the level-2 tables and the mapped pages of its tree. *)
Definition frameCensus (s : OS) (pid : Z) : option (nat * nat * nat * nat) :=
  match pdbr s !! pid with
  | Some root =>
      Some (usedCount (usedPages s),
            length (l1Dirs (memory s) root),
            length (l2Dirs (memory s) root),
            length (mappedPages (memory s) root))
  | None => None
  end.

(** The only tree that mappings of pages below [vaPages] can build: the
    root [r] points from slot 0 to the level-1 directory [a], which points
    from slot 0 to the level-2 table [b]; every other slot of [r] and [a] and
    the slots 2..31 of [b] hold the invalid sentinel. *)
Definition tableShape (m : list Z) (r a b : Z) : Prop :=
  (0 <= r < physPages /\ 0 <= a < physPages /\ 0 <= b < physPages) /\
  (a <> r /\ b <> r /\ a <> b) /\
  m !! Z.to_nat (r * 32) = Some (Z.lor 0x80 a) /\
  m !! Z.to_nat (a * 32) = Some (Z.lor 0x80 b) /\
  (forall j, 1 <= j < 32 ->
     m !! Z.to_nat (r * 32 + j) = Some 0x7F /\
     m !! Z.to_nat (a * 32 + j) = Some 0x7F) /\
  (forall j, 2 <= j < 32 -> m !! Z.to_nat (b * 32 + j) = Some 0x7F).

(** A 3-level machine whose process [pid] has that tree and which has [k]
    frames marked used. *)
Definition treeInv (pid r a b : Z) (k : nat) (s : OS) : Prop :=
  levels s = 3 /\ shaped s /\ pdbr s !! pid = Some r /\
  tableShape (memory s) r a b /\
  usedCount (usedPages s) = k.

(** A program that leaves the table of roots as it found it. *)
Definition keeps_pdbr {A} (m : M A) : Prop :=
  forall s a s', m s = Ok (a, s') -> pdbr s' = pdbr s.

(** Two sequences of draws used in the examples. *)
Definition draws_zero : nat -> Z := fun _ => 0.
Definition draws_count : nat -> Z := fun k => Z.of_nat k.

(** The machine of the end-to-end example: a root for process 1, then the
    mapping of virtual page 5 to frame 9. *)
Definition example_setup : M unit :=
  procAlloc 0 1 0 ;;; allocVirtualPage 1 5 9.

Definition example_state : OS :=
  match final example_setup (OS_init 3 draws_zero) with
  | Some s => s
  | None => OS_init 3 draws_zero
  end.

(** ** The main program *)

(** A program that keeps the sizes of both arrays and the level count, and
    never clears a mark of [usedPages]. *)
Definition keeps_frames {A} (m : M A) : Prop :=
  forall s a s', m s = Ok (a, s') ->
    length (usedPages s') = length (usedPages s) /\
    length (memory s') = length (memory s) /\
    levels s' = levels s /\
    forall k u, u <> 0 -> usedPages s !! k = Some u -> usedPages s' !! k = Some u.

(** [OS.memoryDump]: one line per frame, the frame number and the slice
    [memory[i * pageSize : (i + 1) * pageSize]]; the rendering of the numbers
    in decimal and hexadecimal is left out. *)
Definition memoryDump (s : OS) : list (Z * list Z) :=
  (fun i => (i, page (memory s) i)) <$> seqZ 0 physPages.

(** What the program prints for a translated address: the physical address
    when [result >= 0], else ["Fault at Level"] with [-result]. *)
Inductive answer : Type :=
  | PhysicalAddress (a : Z)
  | FaultAtLevel (l : Z).

Definition report (result : Z) : answer :=
  if 0 <=? result then PhysicalAddress result else FaultAtLevel (- result).

(** A line of the output per generated address, with its answer when the
    option [--solve] is set. *)
Inductive line : Type :=
  | Solved (vaddr : Z) (ans : answer)
  | Question (vaddr : Z).

(** [os.translate(1, vaddr)] inside the program. *)
Definition translate_in (pid vaddr : Z) : M Z :=
  fun s => lift (outcome s pid vaddr) s.

(** The loop [for i in range(options.num)]. *)
Fixpoint translations (solve : bool) (n : nat) : M (list line) :=
  match n with
  | O => ret []
  | S n' =>
      vaddr <- randint 0 (vaSize - 1) ;;
      l <- (if solve then
              result <- translate_in 1 vaddr ;;
              ret (Solved vaddr (report result))
            else ret (Question vaddr)) ;;
      rest <- translations solve n' ;;
      ret (l :: rest)
  end.

(** The program after option parsing and seeding, on [OS(levels=3)]: the
    memory dump, the root of process 1 and the lines of the loop. *)
Definition program (fuel : nat) (allocated num : Z) (solve : bool)
  : M (list (Z * list Z) * Z * list line) :=
  procAlloc fuel 1 allocated ;;;
  dump <- (fun s => Ok (memoryDump s, s)) ;;
  root <- pdbr_get 1 ;;
  lines <- translations solve (Z.to_nat num) ;;
  ret (dump, root, lines).

(** A 2-level machine with a root for process 1 and virtual page 5 mapped
    to frame 9, and a machine without a free frame. *)
Definition two_level_state : OS :=
  match final example_setup (OS_init 2 draws_zero) with
  | Some s => s
  | None => OS_init 2 draws_zero
  end.

Definition full_state : OS :=
  with_usedPages (OS_init 3 draws_zero) (replicate (Z.to_nat physPages) 1).

(** The machine with a root for process 1 and nothing mapped. *)
Definition root_state : OS :=
  match final (procAlloc 0 1 0) (OS_init 3 draws_zero) with
  | Some s => s
  | None => OS_init 3 draws_zero
  end.

(** A line of the output that makes sense: the address lies in the virtual
    address space, a physical address lies in physical memory and has the
    offset of the virtual address, a fault level is 1, 2 or 3. *)
Definition sound_answer (vaddr : Z) (ans : answer) : Prop :=
  match ans with
  | PhysicalAddress a => 0 <= a < physMem /\ a mod pageSize = vaddr mod pageSize
  | FaultAtLevel l => l = 1 \/ l = 2 \/ l = 3
  end.

Definition sound_line (solve : bool) (l : line) : Prop :=
  match l with
  | Solved vaddr ans => solve = true /\ 0 <= vaddr < vaSize /\ sound_answer vaddr ans
  | Question vaddr => solve = false /\ 0 <= vaddr < vaSize
  end.

(** The leaf slots 0 and 1 of the level-2 table [b] are valid exactly for
    the values that bit 5 takes on the allocated page numbers. *)
Definition leafInv (allocated : gset Z) (m : list Z) (b : Z) : Prop :=
  forall j e, 0 <= j <= 1 -> m !! Z.to_nat (b * 32 + j) = Some e ->
    (entryValid e = true <-> exists vp, vp ∈ allocated /\ l2Index vp = j).

(** The machine that a run leaves, or the fresh machine when it raises. *)
Definition snd_state {A} (r : result (A * OS)) : OS :=
  match r with
  | Ok (_, s) => s
  | Raise _ => OS_init 3 draws_zero
  end.

(** * Bit fields *)

Section Bits.

(** A mask whose only set bit at or above position [k] is bit [k] itself
    selects, once shifted by [k], that single bit. *)
Lemma shiftr_land_single (a m k : Z) :
  0 <= k -> 0 <= m -> Z.log2 m = k -> 0 < m ->
  Z.shiftr (Z.land a m) k = Z.b2z (Z.testbit a k).
Proof.
  intros Hk Hm Hlog Hpos.
  apply Z.bits_inj'. intros n Hn.
  rewrite Z.shiftr_spec, Z.land_spec by lia.
  destruct (Z.eq_dec n 0) as [-> | Hne].
  - rewrite Z.add_0_l, <- Hlog, Z.bit_log2 by lia.
    rewrite andb_true_r. now rewrite Z.b2z_bit0.
  - rewrite (Z.bits_above_log2 m (n + k)) by lia.
    rewrite andb_false_r.
    destruct (Z.testbit a k); simpl.
    + symmetry. apply (Z.bits_above_log2 1 n); simpl; lia.
    + symmetry. apply Z.bits_0.
Qed.

Lemma l0Index_bit (a : Z) : l0Index a = Z.b2z (Z.testbit a 15).
Proof. apply shiftr_land_single; reflexivity || easy. Qed.

Lemma l1Index_bit (a : Z) : l1Index a = Z.b2z (Z.testbit a 10).
Proof. apply shiftr_land_single; reflexivity || easy. Qed.

Lemma l2Index_bit (a : Z) : l2Index a = Z.b2z (Z.testbit a 5).
Proof. apply shiftr_land_single; reflexivity || easy. Qed.

Lemma validBit_bit (e : Z) : validBit e = Z.b2z (Z.testbit e 7).
Proof. apply shiftr_land_single; reflexivity || easy. Qed.

Lemma b2z_range (b : bool) : 0 <= Z.b2z b <= 1.
Proof. destruct b; simpl; lia. Qed.

Lemma offsetOf_mod (a : Z) : offsetOf a = a mod 32.
Proof. unfold offsetOf, OFFSET_MASK. apply (Z.land_ones a 5). lia. Qed.

Lemma framePtr_mod (e : Z) : framePtr e = e mod 128.
Proof. unfold framePtr. apply (Z.land_ones e 7). lia. Qed.

Lemma framePtr_range (e : Z) : 0 <= framePtr e < physPages.
Proof. rewrite framePtr_mod. unfold physPages. apply Z.mod_pos_bound. lia. Qed.

Lemma offsetOf_range (a : Z) : 0 <= offsetOf a < pageSize.
Proof. rewrite offsetOf_mod. unfold pageSize. apply Z.mod_pos_bound. lia. Qed.

Lemma shiftl_pageBits (p : Z) : Z.shiftl p pageBits = p * 32.
Proof. unfold pageBits. now rewrite Z.shiftl_mul_pow2 by lia. Qed.

(** [(entry & 0x80) == 0] tests the same bit as [validBit]. *)
Lemma land_0x80 (e : Z) : (Z.land e 0x80 =? 0) = negb (Z.testbit e 7).
Proof.
  assert (H : Z.land e 0x80 = Z.shiftl (Z.b2z (Z.testbit e 7)) 7).
  { apply Z.bits_inj'. intros n Hn.
    rewrite Z.land_spec.
    destruct (Z.ltb_spec n 7) as [Hlt | Hge].
    - rewrite Z.shiftl_spec_low by lia.
      change 128 with (2 ^ 7). rewrite Z.pow2_bits_false by lia.
      apply andb_false_r.
    - rewrite Z.shiftl_spec by lia.
      change 128 with (2 ^ 7). rewrite Z.pow2_bits_eqb by lia.
      destruct (Z.eqb_spec 7 n) as [<- | Hne].
      + rewrite andb_true_r, Z.sub_diag. now rewrite Z.b2z_bit0.
      + rewrite andb_false_r.
        destruct (Z.testbit e 7); simpl.
        * symmetry. apply (Z.bits_above_log2 1 (n - 7)); simpl; lia.
        * symmetry. apply Z.bits_0. }
  rewrite H. destruct (Z.testbit e 7); reflexivity.
Qed.

End Bits.

(** * Python lists, within range *)

Section InRange.

Context {A : Type}.
Implicit Types (l : list A) (i : Z).

Lemma position_in l i :
  0 <= i < Z.of_nat (length l) -> position l i = Some (Z.to_nat i).
Proof.
  intros H. unfold position.
  destruct (Z.leb_spec 0 i); [| lia].
  destruct (Z.ltb_spec i (Z.of_nat (length l))); [reflexivity | lia].
Qed.

Lemma getitem_in l i :
  0 <= i < Z.of_nat (length l) ->
  exists x, getitem l i = Ok x /\ l !! Z.to_nat i = Some x.
Proof.
  intros H. unfold getitem. rewrite position_in by assumption.
  destruct (lookup_lt_is_Some_2 l (Z.to_nat i)) as [x Hx]; [lia |].
  exists x. now rewrite Hx.
Qed.

Lemma getitem_lookup l i x :
  0 <= i < Z.of_nat (length l) ->
  getitem l i = Ok x <-> l !! Z.to_nat i = Some x.
Proof.
  intros H. destruct (getitem_in l i H) as (y & Hy & Hl).
  rewrite Hy, Hl. split; congruence.
Qed.

Lemma setitem_in l i x :
  0 <= i < Z.of_nat (length l) ->
  setitem l i x = Ok (<[Z.to_nat i := x]> l).
Proof. intros H. unfold setitem. now rewrite position_in. Qed.

End InRange.

(** * The walk *)

Lemma validBit_test (e : Z) : (validBit e =? 1) = entryValid e.
Proof. rewrite validBit_bit. unfold entryValid. now destruct (Z.testbit e 7). Qed.

Section Walk3.

Variables (s : OS) (pid va root : Z).
Hypothesis Hlevels : levels s = 3.
Hypothesis Hroot : pdbr s !! pid = Some root.

Let i0 : Z := Z.shiftl root pageBits + l0Index va.
Let i1 (e0 : Z) : Z := Z.shiftl (framePtr e0) pageBits + l1Index va.
Let i2 (e1 : Z) : Z := Z.shiftl (framePtr e1) pageBits + l2Index va.

Lemma walk3_fault0 e0 :
  getitem (memory s) i0 = Ok e0 -> entryValid e0 = false ->
  translate s pid va = ([i0], Ok (-3)).
Proof.
  intros H0 V0. unfold translate, root_of, fetch, wbind, wret.
  rewrite Hlevels, Hroot. simpl. fold i0. rewrite H0.
  now rewrite validBit_test, V0.
Qed.

Lemma walk3_fault1 e0 e1 :
  getitem (memory s) i0 = Ok e0 -> entryValid e0 = true ->
  getitem (memory s) (i1 e0) = Ok e1 -> entryValid e1 = false ->
  translate s pid va = ([i0; i1 e0], Ok (-2)).
Proof.
  intros H0 V0 H1 V1.
  unfold translate, translate_L1, root_of, wlocal, fetch, wbind, wret.
  rewrite Hlevels, Hroot. simpl. fold i0. rewrite H0.
  rewrite validBit_test, V0. simpl. fold (i1 e0). rewrite H1.
  now rewrite validBit_test, V1.
Qed.

Lemma walk3_fault2 e0 e1 e2 :
  getitem (memory s) i0 = Ok e0 -> entryValid e0 = true ->
  getitem (memory s) (i1 e0) = Ok e1 -> entryValid e1 = true ->
  getitem (memory s) (i2 e1) = Ok e2 -> entryValid e2 = false ->
  translate s pid va = ([i0; i1 e0; i2 e1], Ok (-1)).
Proof.
  intros H0 V0 H1 V1 H2 V2.
  unfold translate, translate_L1, translate_L2, root_of, wlocal, fetch, wbind, wret.
  rewrite Hlevels, Hroot. simpl. fold i0. rewrite H0.
  rewrite validBit_test, V0. simpl. fold (i1 e0). rewrite H1.
  rewrite validBit_test, V1. simpl. fold (i2 e1). rewrite H2.
  now rewrite validBit_test, V2.
Qed.

Lemma walk3_hit e0 e1 e2 :
  getitem (memory s) i0 = Ok e0 -> entryValid e0 = true ->
  getitem (memory s) (i1 e0) = Ok e1 -> entryValid e1 = true ->
  getitem (memory s) (i2 e1) = Ok e2 -> entryValid e2 = true ->
  translate s pid va =
    ([i0; i1 e0; i2 e1],
     Ok (Z.lor (Z.shiftl (framePtr e2) pageBits) (offsetOf va))).
Proof.
  intros H0 V0 H1 V1 H2 V2.
  unfold translate, translate_L1, translate_L2, root_of, wlocal, fetch, wbind, wret.
  rewrite Hlevels, Hroot. simpl. fold i0. rewrite H0.
  rewrite validBit_test, V0. simpl. fold (i1 e0). rewrite H1.
  rewrite validBit_test, V1. simpl. fold (i2 e1). rewrite H2.
  now rewrite validBit_test, V2.
Qed.

End Walk3.

Section WalkBounds.

Lemma l0Index_range a : 0 <= l0Index a <= 1.
Proof. rewrite l0Index_bit. apply b2z_range. Qed.
Lemma l1Index_range a : 0 <= l1Index a <= 1.
Proof. rewrite l1Index_bit. apply b2z_range. Qed.
Lemma l2Index_range a : 0 <= l2Index a <= 1.
Proof. rewrite l2Index_bit. apply b2z_range. Qed.

(** A slot of a directory frame lies inside physical memory. *)
Lemma slot_in_memory (p k : Z) :
  0 <= p < physPages -> 0 <= k <= 1 ->
  0 <= Z.shiftl p pageBits + k < physMem.
Proof.
  intros Hp Hk. rewrite shiftl_pageBits.
  unfold physMem, physPages, pageSize in *. lia.
Qed.

Lemma translate_result_sign (s : OS) (pid va r : Z) :
  outcome s pid va = Ok r -> r < 0 -> r = -3 \/ r = -2 \/ r = -1.
Proof.
  unfold outcome, translate, translate_L1, translate_L2,
    root_of, wlocal, fetch, wbind, wret.
  intros H Hneg.
  repeat (case_match; simpl in *; simplify_eq); auto;
  exfalso; revert Hneg; apply Z.le_ngt, Z.lor_nonneg; split;
    (apply Z.shiftl_nonneg, framePtr_range) || apply offsetOf_range.
Qed.

Variables (s : OS) (pid va root : Z).
Hypothesis Hroot : pdbr s !! pid = Some root.
Hypothesis Hrange : 0 <= root < physPages.

Lemma translate_reads_bounded :
  Forall (fun i => 0 <= i < physMem) (reads s pid va).
Proof.
  pose proof (l0Index_range va). pose proof (l1Index_range va).
  pose proof (l2Index_range va).
  unfold reads, translate, translate_L1, translate_L2,
    root_of, wlocal, fetch, wbind, wret.
  rewrite Hroot.
  repeat (case_match; simpl in *; simplify_eq);
    repeat constructor;
    try (apply slot_in_memory; [apply framePtr_range || assumption | assumption]).
Qed.

Hypothesis Hmem : length (memory s) = Z.to_nat physMem.

Lemma translate_no_exception : exists r, outcome s pid va = Ok r.
Proof.
  pose proof (l0Index_range va). pose proof (l1Index_range va).
  pose proof (l2Index_range va).
  assert (Hslot : forall p k, 0 <= p < physPages -> 0 <= k <= 1 ->
            exists e, getitem (memory s) (Z.shiftl p pageBits + k) = Ok e).
  { intros p k Hp Hk.
    destruct (getitem_in (memory s) (Z.shiftl p pageBits + k)) as (e & He & _).
    - rewrite Hmem, Z2Nat.id by (unfold physMem, pageSize, physPages; lia).
      now apply slot_in_memory.
    - now exists e. }
  unfold outcome, translate, translate_L1, translate_L2,
    root_of, wlocal, fetch, wbind, wret.
  rewrite Hroot.
  destruct (Z.leb_spec 3 (levels s)), (Z.leb_spec 2 (levels s)),
    (Z.eqb_spec (levels s) 3); try lia;
  repeat (simpl;
    match goal with
    | |- context [getitem (memory s) (Z.shiftl ?p pageBits + ?k)] =>
        let e := fresh "e" in let He := fresh "He" in
        destruct (Hslot p k) as (e & He);
        [apply framePtr_range || assumption | assumption | rewrite He]
    | |- context [if ?b then _ else _] => destruct b
    end);
  simpl; eauto.
Qed.

End WalkBounds.

Section Wrap.

Lemma l0Index_wrap a : l0Index (a mod 65536) = l0Index a.
Proof.
  rewrite !l0Index_bit. f_equal.
  change 65536 with (2 ^ 16). apply Z.mod_pow2_bits_low. lia.
Qed.

Lemma l1Index_wrap a : l1Index (a mod 65536) = l1Index a.
Proof.
  rewrite !l1Index_bit. f_equal.
  change 65536 with (2 ^ 16). apply Z.mod_pow2_bits_low. lia.
Qed.

Lemma l2Index_wrap a : l2Index (a mod 65536) = l2Index a.
Proof.
  rewrite !l2Index_bit. f_equal.
  change 65536 with (2 ^ 16). apply Z.mod_pow2_bits_low. lia.
Qed.

Lemma offsetOf_wrap a : offsetOf (a mod 65536) = offsetOf a.
Proof.
  unfold offsetOf. apply Z.bits_inj'. intros n Hn.
  rewrite !Z.land_spec.
  destruct (Z.ltb_spec n 16).
  - change 65536 with (2 ^ 16). now rewrite Z.mod_pow2_bits_low by lia.
  - rewrite (Z.bits_above_log2 OFFSET_MASK n) by (simpl; unfold OFFSET_MASK; simpl; lia).
    now rewrite !andb_false_r.
Qed.

Lemma translate_wrap (s : OS) (pid va : Z) :
  translate s pid (va mod 65536) = translate s pid va.
Proof.
  unfold translate, translate_L1, translate_L2.
  now rewrite l0Index_wrap, l1Index_wrap, l2Index_wrap, offsetOf_wrap.
Qed.

End Wrap.

(** * The frame allocator *)

Section Allocator.

Lemma freePages_spec (used idxs : list Z) :
  Forall (fun i => 0 <= i < Z.of_nat (length used)) idxs ->
  freePages used idxs =
    Ok (filter (fun i => used !! Z.to_nat i = Some 0) idxs).
Proof.
  induction 1 as [| i idxs Hi _ IH]; [reflexivity |].
  simpl. destruct (getitem_in used i Hi) as (u & Hu & Hl).
  rewrite Hu, IH. f_equal.
  destruct (Z.eqb_spec u 0) as [-> | Hne].
  - now rewrite filter_cons_True.
  - rewrite filter_cons_False; [reflexivity | congruence].
Qed.

Lemma freeCount_pos_lookup (used : list Z) :
  (0 < freeCount used)%nat -> exists k, used !! k = Some 0.
Proof.
  unfold freeCount. intros H.
  destruct (filter (fun u => u = 0) used) as [| u r] eqn:E; [simpl in H; lia |].
  assert (Hin : u ∈ filter (fun u => u = 0) used) by (rewrite E; left).
  apply list_elem_of_filter in Hin as [-> Hin].
  now apply list_elem_of_lookup in Hin.
Qed.

Lemma freeCount_lookup_pos (used : list Z) (k : nat) :
  used !! k = Some 0 -> (0 < freeCount used)%nat.
Proof.
  unfold freeCount. intros H.
  assert (Hin : 0 ∈ filter (fun u => u = 0) used).
  { apply list_elem_of_filter. split; [reflexivity |].
    apply list_elem_of_lookup. eauto. }
  destruct (filter _ used); [inversion Hin | simpl; lia].
Qed.

Lemma freeCount_mark (used : list Z) (k : nat) :
  used !! k = Some 0 ->
  freeCount (<[k:=1]> used) = pred (freeCount used).
Proof.
  revert k. induction used as [| u used IH]; intros k H.
  - discriminate.
  - destruct k as [| k]; simpl in *.
    + injection H as ->. unfold freeCount.
      rewrite filter_cons_False by lia. now rewrite filter_cons_True.
    + pose proof (freeCount_lookup_pos used k H) as Hpos.
      specialize (IH k H). unfold freeCount in *.
      destruct (decide (u = 0)) as [-> | Hne].
      * rewrite !filter_cons_True by reflexivity. simpl. lia.
      * now rewrite !filter_cons_False by assumption.
Qed.

Lemma usedCount_mark (used : list Z) (k : nat) :
  used !! k = Some 0 ->
  usedCount (<[k:=1]> used) = S (usedCount used).
Proof.
  unfold usedCount. revert k. induction used as [| u used IH]; intros k H.
  - discriminate.
  - destruct k as [| k]; simpl in *.
    + injection H as ->.
      rewrite !filter_cons. repeat case_decide; simpl; congruence || lia.
    + specialize (IH k H).
      rewrite !filter_cons. case_decide; simpl; lia.
Qed.

(** What one call of [findFree] does when a frame is free. *)
Lemma findFree_spec (s : OS) :
  length (usedPages s) = Z.to_nat physPages ->
  (0 < freeCount (usedPages s))%nat ->
  exists f,
    0 <= f < physPages /\
    usedPages s !! Z.to_nat f = Some 0 /\
    findFree s =
      Ok (f, with_usedPages (with_drawn s (S (drawn s)))
               (<[Z.to_nat f := 1]> (usedPages s))).
Proof.
  intros Hlen Hfree.
  destruct (freeCount_pos_lookup _ Hfree) as [k0 Hk0].
  assert (Hk0lt : (k0 < length (usedPages s))%nat) by (eapply lookup_lt_Some; eauto).
  unfold findFree, bind, lift.
  rewrite freePages_spec.
  2:{ apply Forall_forall. intros i Hi. apply elem_of_seqZ in Hi.
      rewrite Hlen, Z2Nat.id by (unfold physPages; lia). lia. }
  remember (filter _ (seqZ 0 physPages)) as free eqn:Efree.
  assert (Hne : Z.of_nat k0 ∈ free).
  { subst free. apply list_elem_of_filter. split.
    - now rewrite Nat2Z.id.
    - apply elem_of_seqZ. rewrite Hlen in Hk0lt. unfold physPages in *. lia. }
  assert (Hpos : 0 < Z.of_nat (length free)).
  { destruct free; [inversion Hne | simpl; lia]. }
  assert (Hchoice : choice free =
            (k <- randbelow (Z.of_nat (length free)) ;; lift (getitem free k))).
  { destruct free; [inversion Hne | reflexivity]. }
  rewrite Hchoice. unfold randbelow, bind, lift.
  set (k := random s (drawn s) `mod` Z.of_nat (length free)).
  assert (Hk : 0 <= k < Z.of_nat (length free)) by now apply Z.mod_pos_bound.
  destruct (getitem_in free k Hk) as (f & Hf & Hl).
  rewrite Hf. simpl.
  assert (Hin : f ∈ free) by (apply list_elem_of_lookup; eauto).
  rewrite Efree in Hin. apply list_elem_of_filter in Hin as [Hzero Hseq].
  apply elem_of_seqZ in Hseq.
  exists f. split; [lia |]. split; [assumption |].
  rewrite setitem_in; [reflexivity |].
  rewrite Hlen, Z2Nat.id by (unfold physPages; lia). lia.
Qed.

(** [n] calls in a row: the frames are distinct, each was free and is
    marked afterwards, and frames marked before stay as they were. *)
Lemma findFreeN_spec (n : nat) : forall s : OS,
  length (usedPages s) = Z.to_nat physPages ->
  (n <= freeCount (usedPages s))%nat ->
  exists fs s',
    findFreeN n s = Ok (fs, s') /\
    length fs = n /\ NoDup fs /\
    length (usedPages s') = Z.to_nat physPages /\
    freeCount (usedPages s') = (freeCount (usedPages s) - n)%nat /\
    memory s' = memory s /\ pdbr s' = pdbr s /\ levels s' = levels s /\
    (forall k u, u <> 0 -> usedPages s !! k = Some u -> usedPages s' !! k = Some u) /\
    Forall (fun f => 0 <= f < physPages /\
                     usedPages s !! Z.to_nat f = Some 0 /\
                     usedPages s' !! Z.to_nat f = Some 1) fs.
Proof.
  induction n as [| n IH]; intros s Hlen Hn.
  - exists [], s. simpl. unfold ret.
    repeat split; auto using NoDup_nil_2. lia.
  - destruct (findFree_spec s Hlen) as (f & Hf & Hzero & Hrun); [lia |].
    set (s1 := with_usedPages _ _) in Hrun.
    assert (Hlen1 : length (usedPages s1) = Z.to_nat physPages).
    { unfold s1. simpl. now rewrite length_insert. }
    assert (Hcount1 : freeCount (usedPages s1) = pred (freeCount (usedPages s))).
    { unfold s1. simpl. now apply freeCount_mark. }
    destruct (IH s1 Hlen1) as (fs & s' & Hrun' & Hlfs & Hnd & Hlen' & Hcount'
                                 & Hmem & Hpd & Hlv & Hkeep & Hall); [lia |].
    assert (Hf1 : usedPages s1 !! Z.to_nat f = Some 1).
    { unfold s1. simpl. apply list_lookup_insert_eq.
      eapply lookup_lt_Some; eauto. }
    exists (f :: fs), s'. simpl. unfold bind, ret. rewrite Hrun, Hrun'.
    split; [reflexivity |]. split; [now rewrite Hlfs |].
    split.
    { apply NoDup_cons. split; [| assumption].
      intros Hin. rewrite Forall_forall in Hall.
      destruct (Hall f Hin) as (_ & Hz & _).
      unfold s1 in Hz, Hf1. simpl in *. congruence. }
    split; [assumption |].
    split; [lia |].
    split; [now rewrite Hmem |]. split; [now rewrite Hpd |].
    split; [now rewrite Hlv |].
    split.
    { intros k u Hu Hk. apply Hkeep; [assumption |].
      unfold s1. simpl.
      destruct (decide (Z.to_nat f = k)) as [<- | Hne]; [congruence |].
      now rewrite list_lookup_insert_ne. }
    apply Forall_cons. split.
    { split; [assumption |]. split; [assumption |]. now apply Hkeep. }
    eapply Forall_impl; [exact Hall |].
    intros g (Hg & Hgz & Hg1). split; [assumption |]. split; [| assumption].
    unfold s1 in Hgz. simpl in Hgz.
    destruct (decide (Z.to_nat f = Z.to_nat g)) as [Heq | Hne].
    + rewrite Heq, list_lookup_insert_eq in Hgz; [discriminate |].
      rewrite <- Heq. eapply lookup_lt_Some; eauto.
    + now rewrite list_lookup_insert_ne in Hgz.
Qed.

Lemma fresh_freeCount : freeCount (replicate 128 0) = 128%nat.
Proof. vm_compute. reflexivity. Qed.

Lemma fresh_usedCount : usedCount (replicate 128 0) = 0%nat.
Proof. vm_compute. reflexivity. Qed.

End Allocator.

(** * Directory initialisation *)

Section InitPageDir.

Lemma fill_spec (v : Z) (n : nat) : forall (start : Z) (s : OS),
  0 <= start -> start + Z.of_nat n <= Z.of_nat (length (memory s)) ->
  exists m',
    for_each (seqZ start (Z.of_nat n)) (fun i => memset i v) s
      = Ok (tt, with_memory s m') /\
    length m' = length (memory s) /\
    forall k : nat,
      m' !! k = if decide (start <= Z.of_nat k < start + Z.of_nat n)
                then Some v else memory s !! k.
Proof.
  induction n as [| n IH]; intros start s Hstart Hend.
  - exists (memory s). simpl. split; [now destruct s |].
    split; [reflexivity |]. intros k. case_decide; [lia | reflexivity].
  - rewrite seqZ_cons by lia. simpl. unfold bind at 1. unfold memset at 1.
    rewrite setitem_in by lia.
    replace (Z.pred (Z.of_nat (S n))) with (Z.of_nat n) by lia.
    destruct (IH (Z.succ start) (with_memory s (<[Z.to_nat start := v]> (memory s))))
      as (m' & Hrun & Hlen & Hget).
    { lia. }
    { simpl. rewrite length_insert. lia. }
    exists m'. rewrite Hrun. split; [reflexivity |].
    simpl in Hlen. rewrite length_insert in Hlen. split; [assumption |].
    intros k. rewrite Hget. simpl.
    destruct (decide (Z.to_nat start = k)) as [<- | Hne].
    + rewrite list_lookup_insert_eq by lia.
      repeat case_decide; reflexivity || lia.
    + rewrite list_lookup_insert_ne by assumption.
      repeat case_decide; reflexivity || lia.
Qed.

Lemma initPageDir_spec (p : Z) (s : OS) :
  0 <= p < physPages -> length (memory s) = Z.to_nat physMem ->
  exists m',
    initPageDir p s = Ok (tt, with_memory s m') /\
    length m' = Z.to_nat physMem /\
    forall k : nat,
      m' !! k = if decide (p * 32 <= Z.of_nat k < p * 32 + 32)
                then Some 0x7F else memory s !! k.
Proof.
  intros Hp Hlen. unfold initPageDir. rewrite shiftl_pageBits.
  destruct (fill_spec 0x7F 32 (p * 32) s) as (m' & Hrun & Hl & Hget).
  - lia.
  - rewrite Hlen. unfold physMem, pageSize, physPages in *. lia.
  - exists m'. split; [exact Hrun |]. split; [congruence | exact Hget].
Qed.

End InitPageDir.

(** * Allocation of a mapping *)

Ltac proj_simpl :=
  cbn [levels usedPages memory pdbr random drawn
       with_usedPages with_memory with_pdbr with_drawn fst snd] in *.

(** One step of symbolic execution of a monadic program. *)
Ltac mstep :=
  cbv beta iota; unfold ret, local, raise; cbv beta iota;
  unfold ret, local, raise; cbv beta iota.

Section Cells.

Lemma physMem_nat : Z.to_nat physMem = 4096%nat.
Proof. reflexivity. Qed.

Lemma memget_in (s : OS) (i x : Z) :
  length (memory s) = Z.to_nat physMem -> 0 <= i < physMem ->
  memory s !! Z.to_nat i = Some x -> memget i s = Ok (x, s).
Proof.
  intros Hlen Hi Hx. unfold memget, lift.
  assert (Hin : 0 <= i < Z.of_nat (length (memory s))).
  { rewrite Hlen. unfold physMem, pageSize, physPages in *. lia. }
  apply (getitem_lookup _ _ _ Hin) in Hx. now rewrite Hx.
Qed.

Lemma memset_in (s : OS) (i v : Z) :
  length (memory s) = Z.to_nat physMem -> 0 <= i < physMem ->
  memset i v s = Ok (tt, with_memory s (<[Z.to_nat i := v]> (memory s))).
Proof.
  intros Hlen Hi. unfold memset. rewrite setitem_in; [reflexivity |].
  rewrite Hlen. unfold physMem, pageSize, physPages in *. lia.
Qed.

Lemma entryValid_mark (p : Z) :
  0 <= p < physPages -> entryValid (Z.lor 0x80 p) = true.
Proof.
  intros Hp. unfold entryValid. rewrite Z.lor_spec. reflexivity.
Qed.

Lemma framePtr_mark (p : Z) :
  0 <= p < physPages -> framePtr (Z.lor 0x80 p) = p.
Proof.
  intros Hp. unfold framePtr. rewrite Z.land_lor_distr_l.
  change (Z.land 128 127) with 0. rewrite Z.lor_0_l.
  change 127 with (Z.ones 7). rewrite Z.land_ones by lia.
  apply Z.mod_small. unfold physPages in Hp. lia.
Qed.

Lemma entryValid_sentinel : entryValid 0x7F = false.
Proof. reflexivity. Qed.

End Cells.

Section AllocVirtualPage.

Variables (s : OS) (pid root vp pp : Z).
Hypothesis Hlevels : levels s = 3.
Hypothesis Hshape : shaped s.
Hypothesis Hroot : pdbr s !! pid = Some root.
Hypothesis Hrange : 0 <= root < physPages.

Let i0 : Z := root * 32 + l0Index vp.

(** When the three entries on the path of [vp] are valid, the call reads
    them and changes nothing. *)
Lemma alloc_valid_path (e0 e1 e2 : Z) :
  memory s !! Z.to_nat i0 = Some e0 -> entryValid e0 = true ->
  memory s !! Z.to_nat (framePtr e0 * 32 + l1Index vp) = Some e1 ->
  entryValid e1 = true ->
  memory s !! Z.to_nat (framePtr e1 * 32 + l2Index vp) = Some e2 ->
  entryValid e2 = true ->
  allocVirtualPage pid vp pp s = Ok (tt, s).
Proof.
  intros H0 V0 H1 V1 H2 V2. destruct Hshape as [Hu Hm].
  pose proof (l0Index_range vp). pose proof (l1Index_range vp).
  pose proof (l2Index_range vp).
  pose proof (framePtr_range e0). pose proof (framePtr_range e1).
  unfold allocVirtualPage, bind, self_levels. cbv zeta. rewrite Hlevels.
  change (3 <=? 3) with true. change (3 =? 3) with true.
  cbv beta iota. unfold pdbr_get. rewrite Hroot. mstep.
  rewrite shiftl_pageBits. fold i0.
  rewrite (memget_in s i0 e0 Hm) by
    (assumption || (unfold i0, physMem, pageSize, physPages in *; lia)).
  mstep.
  rewrite land_0x80. fold (entryValid e0). rewrite V0.
  change (negb true) with false. mstep.
  fold (framePtr e0). rewrite shiftl_pageBits.
  rewrite (memget_in s _ e1 Hm) by
    (assumption || (unfold physMem, pageSize, physPages in *; lia)).
  mstep.
  rewrite land_0x80. fold (entryValid e1). rewrite V1.
  change (negb true) with false. mstep.
  fold (framePtr e1). rewrite shiftl_pageBits.
  rewrite (memget_in s _ e2 Hm) by
    (assumption || (unfold physMem, pageSize, physPages in *; lia)).
  mstep.
  rewrite land_0x80. fold (entryValid e2). rewrite V2. reflexivity.
Qed.

(** When the level-0 and level-1 entries are valid and the leaf is not,
    the call writes the leaf and nothing else. *)
Lemma alloc_leaf (e0 e1 e2 : Z) :
  memory s !! Z.to_nat i0 = Some e0 -> entryValid e0 = true ->
  memory s !! Z.to_nat (framePtr e0 * 32 + l1Index vp) = Some e1 ->
  entryValid e1 = true ->
  memory s !! Z.to_nat (framePtr e1 * 32 + l2Index vp) = Some e2 ->
  entryValid e2 = false ->
  allocVirtualPage pid vp pp s =
    Ok (tt, with_memory s
              (<[Z.to_nat (framePtr e1 * 32 + l2Index vp) := Z.lor 0x80 pp]>
                 (memory s))).
Proof.
  intros H0 V0 H1 V1 H2 V2. destruct Hshape as [Hu Hm].
  pose proof (l0Index_range vp). pose proof (l1Index_range vp).
  pose proof (l2Index_range vp).
  pose proof (framePtr_range e0). pose proof (framePtr_range e1).
  unfold allocVirtualPage, bind, self_levels. cbv zeta. rewrite Hlevels.
  change (3 <=? 3) with true. change (3 =? 3) with true.
  cbv beta iota. unfold pdbr_get. rewrite Hroot. mstep.
  rewrite shiftl_pageBits. fold i0.
  rewrite (memget_in s i0 e0 Hm) by
    (assumption || (unfold i0, physMem, pageSize, physPages in *; lia)).
  mstep.
  rewrite land_0x80. fold (entryValid e0). rewrite V0.
  change (negb true) with false. mstep.
  fold (framePtr e0). rewrite shiftl_pageBits.
  rewrite (memget_in s _ e1 Hm) by
    (assumption || (unfold physMem, pageSize, physPages in *; lia)).
  mstep.
  rewrite land_0x80. fold (entryValid e1). rewrite V1.
  change (negb true) with false. mstep.
  fold (framePtr e1). rewrite shiftl_pageBits.
  rewrite (memget_in s _ e2 Hm) by
    (assumption || (unfold physMem, pageSize, physPages in *; lia)).
  mstep.
  rewrite land_0x80. fold (entryValid e2). rewrite V2.
  change (negb false) with true. cbv iota.
  apply memset_in; [assumption |].
  unfold physMem, pageSize, physPages in *. lia.
Qed.

(** When the level-0 entry is invalid, the call takes two fresh frames
    [a] and [b], makes [a] the level-1 directory and [b] the level-2 table
    of the path, and writes the leaf. *)
Lemma alloc_fresh_path (e0 u : Z) :
  memory s !! Z.to_nat i0 = Some e0 -> entryValid e0 = false ->
  usedPages s !! Z.to_nat root = Some u -> u <> 0 ->
  (2 <= freeCount (usedPages s))%nat ->
  exists a b s',
    allocVirtualPage pid vp pp s = Ok (tt, s') /\
    (0 <= a < physPages /\ 0 <= b < physPages) /\
    (a <> root /\ b <> root /\ a <> b) /\
    (usedPages s !! Z.to_nat a = Some 0 /\ usedPages s !! Z.to_nat b = Some 0) /\
    usedPages s' = <[Z.to_nat b := 1]> (<[Z.to_nat a := 1]> (usedPages s)) /\
    pdbr s' = pdbr s /\ levels s' = levels s /\
    length (memory s') = Z.to_nat physMem /\
    forall k : nat,
      memory s' !! k =
        if decide (Z.of_nat k = b * 32 + l2Index vp) then Some (Z.lor 0x80 pp)
        else if decide (b * 32 <= Z.of_nat k < b * 32 + 32) then Some 0x7F
        else if decide (Z.of_nat k = a * 32 + l1Index vp) then Some (Z.lor 0x80 b)
        else if decide (a * 32 <= Z.of_nat k < a * 32 + 32) then Some 0x7F
        else if decide (Z.of_nat k = i0) then Some (Z.lor 0x80 a)
        else memory s !! k.
Proof.
  intros H0 V0 Hu0 Hune Hfree. destruct Hshape as [Hu Hm].
  pose proof (l0Index_range vp) as R0. pose proof (l1Index_range vp) as R1.
  pose proof (l2Index_range vp) as R2.
  assert (Hpm : physMem = 4096) by reflexivity.
  assert (Hpp : physPages = 128) by reflexivity.
  (* the first fresh frame *)
  destruct (findFree_spec s Hu) as (a & Ha & Haz & Hrun1); [lia |].
  set (s1 := with_usedPages _ _) in Hrun1.
  assert (Har : a <> root) by (intros ->; congruence).
  set (s2 := with_memory s1 (<[Z.to_nat i0 := Z.lor 0x80 a]> (memory s1))).
  assert (Hm2 : length (memory s2) = Z.to_nat physMem).
  { unfold s2, s1. proj_simpl. now rewrite length_insert. }
  destruct (initPageDir_spec a s2 Ha Hm2) as (m3 & Hinit3 & Hlen3 & Hget3).
  set (s3 := with_memory s2 m3) in Hinit3.
  (* the second fresh frame *)
  assert (Hu3 : length (usedPages s3) = Z.to_nat physPages).
  { unfold s3, s2, s1. proj_simpl. now rewrite length_insert. }
  assert (Hfree3 : (0 < freeCount (usedPages s3))%nat).
  { unfold s3, s2, s1. proj_simpl. rewrite freeCount_mark by assumption. lia. }
  destruct (findFree_spec s3 Hu3 Hfree3) as (b & Hb & Hbz & Hrun4).
  set (s4 := with_usedPages _ _) in Hrun4.
  assert (Hbz' : <[Z.to_nat a := 1]> (usedPages s) !! Z.to_nat b = Some 0)
    by exact Hbz.
  assert (Hba : a <> b).
  { intros ->. rewrite list_lookup_insert_eq in Hbz'; [discriminate |].
    eapply lookup_lt_Some; eauto. }
  rewrite list_lookup_insert_ne in Hbz' by lia.
  assert (Hbr : b <> root) by (intros ->; congruence).
  set (i1 := a * 32 + l1Index vp).
  set (s5 := with_memory s4 (<[Z.to_nat i1 := Z.lor 0x80 b]> (memory s4))).
  assert (Hm5 : length (memory s5) = Z.to_nat physMem).
  { unfold s5, s4. proj_simpl. now rewrite length_insert. }
  destruct (initPageDir_spec b s5 Hb Hm5) as (m6 & Hinit6 & Hlen6 & Hget6).
  set (s6 := with_memory s5 m6) in Hinit6.
  set (i2 := b * 32 + l2Index vp).
  assert (Hi1 : 0 <= i1 < physMem) by (unfold i1; lia).
  assert (Hi2 : 0 <= i2 < physMem) by (unfold i2; lia).
  assert (Hc1 : memory s3 !! Z.to_nat i1 = Some 0x7F).
  { change (memory s3) with m3. rewrite Hget3.
    case_decide; [reflexivity | unfold i1 in *; lia]. }
  assert (Hc2 : memory s6 !! Z.to_nat i2 = Some 0x7F).
  { change (memory s6) with m6. rewrite Hget6.
    case_decide; [reflexivity | unfold i2 in *; lia]. }
  exists a, b, (with_memory s6 (<[Z.to_nat i2 := Z.lor 0x80 pp]> (memory s6))).
  split.
  { unfold allocVirtualPage, bind, self_levels. cbv zeta. rewrite Hlevels.
    change (3 <=? 3) with true. change (3 =? 3) with true.
    cbv beta iota. unfold pdbr_get. rewrite Hroot. mstep.
    rewrite shiftl_pageBits. fold i0.
    rewrite (memget_in s i0 e0 Hm) by
      (assumption || (unfold i0 in *; lia)).
    mstep. rewrite land_0x80. fold (entryValid e0). rewrite V0.
    change (negb false) with true. mstep. rewrite Hrun1. mstep.
    rewrite (memset_in s1 i0) by (assumption || (unfold i0 in *; lia)).
    fold s2. mstep. rewrite Hinit3. mstep.
    rewrite shiftl_pageBits. fold i1.
    rewrite (memget_in s3 i1 0x7F Hlen3 Hi1 Hc1).
    mstep. change (Z.land 127 128 =? 0) with true. mstep.
    rewrite Hrun4. mstep.
    rewrite (memset_in s4 i1) by (assumption || (unfold i1 in *; lia)).
    fold s5. mstep. rewrite Hinit6. mstep.
    rewrite shiftl_pageBits. fold i2.
    rewrite (memget_in s6 i2 0x7F Hlen6 Hi2 Hc2).
    mstep. change (Z.land 127 128 =? 0) with true. mstep.
    apply memset_in; [assumption | unfold i2 in *; lia]. }
  split; [split; assumption |].
  split; [repeat split; assumption |].
  split; [split; assumption |].
  split; [reflexivity |]. split; [reflexivity |]. split; [reflexivity |].
  split.
  { proj_simpl. now rewrite length_insert. }
  intros k. proj_simpl.
  destruct (decide (Z.of_nat k = b * 32 + l2Index vp)) as [Hk2 | Hk2].
  { replace (Z.to_nat i2) with k by (unfold i2; lia).
    apply list_lookup_insert_eq.
    apply Nat.lt_le_trans with 4096%nat; [lia |].
    apply Nat.eq_le_incl. symmetry. exact Hlen6. }
  rewrite list_lookup_insert_ne by (unfold i2; lia).
  rewrite Hget6. case_decide; [reflexivity |].
  unfold s5, s4. proj_simpl.
  destruct (decide (Z.of_nat k = a * 32 + l1Index vp)) as [Hk1 | Hk1].
  { replace (Z.to_nat i1) with k by (unfold i1; lia).
    apply list_lookup_insert_eq.
    apply Nat.lt_le_trans with 4096%nat; [lia |].
    apply Nat.eq_le_incl. symmetry. exact Hlen3. }
  rewrite list_lookup_insert_ne by (unfold i1; lia).
  rewrite Hget3. case_decide; [reflexivity |].
  unfold s2, s1. proj_simpl.
  destruct (decide (Z.of_nat k = i0)) as [Hk0 | Hk0].
  { replace (Z.to_nat i0) with k by lia.
    apply list_lookup_insert_eq. apply lookup_lt_Some in H0. lia. }
  now rewrite list_lookup_insert_ne by lia.
Qed.

End AllocVirtualPage.

(** * Creation of a process root *)

Section ProcAllocRoot.

Variables (s : OS) (fuel : nat) (pid : Z).
Hypothesis Hshape : shaped s.
Hypothesis Hfree : (0 < freeCount (usedPages s))%nat.

Lemma procAlloc_root :
  exists r s',
    procAlloc fuel pid 0 s = Ok ([], s') /\
    0 <= r < physPages /\
    usedPages s !! Z.to_nat r = Some 0 /\
    usedPages s' = <[Z.to_nat r := 1]> (usedPages s) /\
    pdbr s' = <[pid := r]> (pdbr s) /\
    levels s' = levels s /\
    length (memory s') = Z.to_nat physMem /\
    forall k : nat,
      memory s' !! k = if decide (r * 32 <= Z.of_nat k < r * 32 + 32)
                       then Some 0x7F else memory s !! k.
Proof.
  destruct Hshape as [Hu Hm].
  destruct (findFree_spec s Hu Hfree) as (r & Hr & Hzero & Hrun).
  set (s0 := with_usedPages (with_drawn s (S (drawn s)))
               (<[Z.to_nat r := 1]> (usedPages s))) in *.
  set (s1 := with_pdbr s0 (<[pid := r]> (pdbr s0))).
  destruct (initPageDir_spec r s1 Hr Hm) as (m' & Hinit & Hlen & Hget).
  exists r, (with_memory s1 m').
  unfold procAlloc, bind. rewrite Hrun. mstep. fold s1. rewrite Hinit.
  simpl. mstep. rewrite elements_empty.
  repeat split; try assumption; lia.
Qed.

End ProcAllocRoot.

(** * Inversion of the effectful operations *)

Section Inversion.

Lemma bind_inv {A B} (m : M A) (f : A -> M B) (s s' : OS) (b : B) :
  bind m f s = Ok (b, s') ->
  exists a s1, m s = Ok (a, s1) /\ f a s1 = Ok (b, s').
Proof.
  unfold bind. destruct (m s) as [[a s1] | e]; [| discriminate].
  intros H. now exists a, s1.
Qed.

Lemma findFree_inv (s s' : OS) (f : Z) :
  length (usedPages s) = Z.to_nat physPages ->
  findFree s = Ok (f, s') ->
  0 <= f < physPages /\
  usedPages s !! Z.to_nat f = Some 0 /\
  usedPages s' = <[Z.to_nat f := 1]> (usedPages s) /\
  memory s' = memory s /\ pdbr s' = pdbr s /\ levels s' = levels s.
Proof.
  intros Hlen Hrun.
  destruct (Nat.eq_dec (freeCount (usedPages s)) 0%nat) as [Hz | Hnz].
  - exfalso. revert Hrun. unfold findFree, bind, lift.
    rewrite freePages_spec.
    2:{ apply Forall_forall. intros i Hi. apply elem_of_seqZ in Hi.
        rewrite Hlen, Z2Nat.id by (unfold physPages; lia). lia. }
    destruct (filter _ (seqZ 0 physPages)) as [| i r] eqn:E; [discriminate |].
    assert (Hin : i ∈ filter (fun i => usedPages s !! Z.to_nat i = Some 0)
                    (seqZ 0 physPages)) by (rewrite E; left).
    apply list_elem_of_filter in Hin as [Hi _].
    apply freeCount_lookup_pos in Hi. lia.
  - destruct (findFree_spec s Hlen) as (g & Hg & Hgz & Hrun'); [lia |].
    rewrite Hrun' in Hrun. injection Hrun as <- <-.
    split; [assumption |]. split; [assumption |]. repeat split.
Qed.

Lemma randint_inv (a b : Z) (s s' : OS) (v : Z) :
  a <= b -> randint a b s = Ok (v, s') ->
  a <= v <= b /\
  levels s' = levels s /\ usedPages s' = usedPages s /\
  memory s' = memory s /\ pdbr s' = pdbr s.
Proof.
  intros Hab. unfold randint, bind, randbelow, ret. intros H.
  injection H as <- <-.
  pose proof (Z.mod_pos_bound (random s (drawn s)) (b - a + 1)).
  repeat split; lia.
Qed.

Lemma redraw_inv (fuel : nat) (allocated : gset Z) :
  forall (vp : Z) (s s' : OS) (v : Z),
    0 <= vp < vaPages ->
    redraw fuel allocated vp s = Ok (v, s') ->
    (0 <= v < vaPages /\ v ∉ allocated) /\
    levels s' = levels s /\ usedPages s' = usedPages s /\
    memory s' = memory s /\ pdbr s' = pdbr s.
Proof.
  induction fuel as [| fuel IH]; intros vp s s' v Hvp; simpl;
    destruct (decide (vp ∈ allocated)) as [Hin | Hnin].
  - discriminate.
  - unfold ret. intros H. injection H as <- <-. auto.
  - intros H. apply bind_inv in H as (vp' & s1 & Hr & H).
    apply randint_inv in Hr as (Hv' & Hl & Hu & Hm & Hp);
      [| unfold vaPages; lia].
    apply IH in H as (Hv & Hl' & Hu' & Hm' & Hp'); [| unfold vaPages in *; lia].
    split; [assumption |]. repeat split; congruence.
  - unfold ret. intros H. injection H as <- <-. auto.
Qed.

End Inversion.

Lemma then_translate_ext {A} (p q : M A) (pid va : Z) (s0 : OS) :
  p s0 = q s0 ->
  then_translate p pid va s0 = then_translate q pid va s0.
Proof. unfold then_translate. now intros ->. Qed.

(** * The end-to-end example, for every sequence of draws *)

Section Example.

Variable rnd : nat -> Z.

Lemma OS_init_shaped (lv : Z) : shaped (OS_init lv rnd).
Proof. split; reflexivity. Qed.

(** The machine that [example_setup] builds: a root [r], a level-1
    directory [a] and a level-2 table [b], with the mapping in slot 0 of
    each and the sentinel in slot 1 of the table. *)
Lemma example_run :
  exists r a b s,
    example_setup (OS_init 3 rnd) = Ok (tt, s) /\
    levels s = 3 /\ shaped s /\ pdbr s !! 1 = Some r /\
    (0 <= r < physPages /\ 0 <= a < physPages /\ 0 <= b < physPages) /\
    memory s !! Z.to_nat (r * 32) = Some (Z.lor 0x80 a) /\
    memory s !! Z.to_nat (a * 32) = Some (Z.lor 0x80 b) /\
    memory s !! Z.to_nat (b * 32) = Some (Z.lor 0x80 9) /\
    memory s !! Z.to_nat (b * 32 + 1) = Some 0x7F.
Proof.
  assert (Hpp : physPages = 128) by reflexivity.
  destruct (procAlloc_root (OS_init 3 rnd) 0 1 (OS_init_shaped 3))
    as (r & s1 & Hrun1 & Hr & Hrz & Hu1 & Hp1 & Hl1 & Hm1 & Hget1).
  { vm_compute. lia. }
  assert (Hshape1 : shaped s1).
  { split; [| assumption]. rewrite Hu1, length_insert. reflexivity. }
  assert (Hroot1 : pdbr s1 !! 1 = Some r).
  { rewrite Hp1. apply lookup_insert_eq. }
  assert (Hused1 : usedPages s1 !! Z.to_nat r = Some 1).
  { rewrite Hu1. apply list_lookup_insert_eq.
    eapply lookup_lt_Some; eauto. }
  destruct (alloc_fresh_path s1 1 r 5 9 Hl1 Hshape1 Hroot1 Hr 0x7F 1)
    as (a & b & s & Hrun & [Ha Hb] & (Har & Hbr & Hab) & _ & Hu & Hp & Hl
          & Hm & Hget); try assumption; try lia.
  { rewrite Hget1. change (l0Index 5) with 0.
    case_decide; [reflexivity | lia]. }
  { reflexivity. }
  { rewrite Hu1, freeCount_mark by assumption. vm_compute. lia. }
  exists r, a, b, s.
  split. { unfold example_setup, bind. now rewrite Hrun1. }
  split; [now rewrite Hl, Hl1 |].
  split. { split; [| assumption]. rewrite Hu, !length_insert. apply Hshape1. }
  split; [congruence |].
  split; [auto |].
  change (l0Index 5) with 0 in Hget. change (l1Index 5) with 0 in Hget.
  change (l2Index 5) with 0 in Hget.
  repeat split; rewrite Hget; repeat case_decide; reflexivity || lia.
Qed.

Lemma cell_getitem (s : OS) (i x : Z) :
  shaped s -> 0 <= i < physMem ->
  memory s !! Z.to_nat i = Some x -> getitem (memory s) i = Ok x.
Proof.
  intros [_ Hm] Hi Hx. apply getitem_lookup; [| assumption].
  rewrite Hm, Z2Nat.id by (unfold physMem, pageSize, physPages; lia). lia.
Qed.

(** The walk of the example machine for an address whose three index bits
    (15, 10 and 5) are [0], [0] and [j]. *)
Lemma example_walk (va j : Z) :
  l0Index va = 0 -> l1Index va = 0 -> l2Index va = j ->
  exists r a b s e,
    example_setup (OS_init 3 rnd) = Ok (tt, s) /\
    getitem (memory s) (b * 32 + j) = Ok e /\
    (j = 0 -> e = Z.lor 0x80 9) /\ (j = 1 -> e = 0x7F) /\
    translate s 1 va =
      ([r * 32; a * 32; b * 32 + j],
       Ok (if entryValid e
           then Z.lor (Z.shiftl (framePtr e) pageBits) (offsetOf va)
           else -1)).
Proof.
  intros J0 J1 J2.
  assert (Hpp : physPages = 128) by reflexivity.
  assert (Hpm : physMem = 4096) by reflexivity.
  destruct example_run
    as (r & a & b & s & Hrun & Hl & Hshape & Hroot & (Hr & Ha & Hb)
          & Hc0 & Hc1 & Hc2 & Hc3).
  pose proof (l2Index_range va) as Hj. rewrite J2 in Hj.
  assert (He : exists e, memory s !! Z.to_nat (b * 32 + j) = Some e /\
                         (j = 0 -> e = Z.lor 0x80 9) /\ (j = 1 -> e = 0x7F)).
  { destruct (Z.eq_dec j 0) as [-> | Hj0].
    - exists (Z.lor 0x80 9). rewrite Z.add_0_r.
      split; [assumption |]. split; [reflexivity | lia].
    - replace j with 1 by lia. exists 0x7F.
      split; [assumption |]. split; [lia | reflexivity]. }
  destruct He as (e & He & He0 & He1).
  exists r, a, b, s, e.
  apply cell_getitem in Hc0, Hc1, He; try assumption; try lia.
  split; [assumption |]. split; [assumption |].
  split; [assumption |]. split; [assumption |].
  assert (G0 : getitem (memory s) (Z.shiftl r pageBits + l0Index va)
               = Ok (Z.lor 0x80 a)).
  { now rewrite shiftl_pageBits, J0, Z.add_0_r. }
  assert (G1 : getitem (memory s)
                 (Z.shiftl (framePtr (Z.lor 0x80 a)) pageBits + l1Index va)
               = Ok (Z.lor 0x80 b)).
  { now rewrite framePtr_mark, shiftl_pageBits, J1, Z.add_0_r. }
  assert (G2 : getitem (memory s)
                 (Z.shiftl (framePtr (Z.lor 0x80 b)) pageBits + l2Index va)
               = Ok e).
  { now rewrite framePtr_mark, shiftl_pageBits, J2. }
  destruct (entryValid e) eqn:V.
  - rewrite (walk3_hit s 1 va r Hl Hroot _ _ _ G0 (entryValid_mark a Ha)
               G1 (entryValid_mark b Hb) G2 V).
    rewrite !framePtr_mark, !shiftl_pageBits, J0, J1, J2, !Z.add_0_r by assumption.
    reflexivity.
  - rewrite (walk3_fault2 s 1 va r Hl Hroot _ _ _ G0 (entryValid_mark a Ha)
               G1 (entryValid_mark b Hb) G2 V).
    rewrite !framePtr_mark, !shiftl_pageBits, J0, J1, J2, !Z.add_0_r by assumption.
    reflexivity.
Qed.

(** A second mapping of virtual page 5 reads the three valid entries of
    its path and leaves the machine as it was. *)
Lemma example_second_alloc (pp2 : Z) :
  (example_setup ;;; allocVirtualPage 1 5 pp2) (OS_init 3 rnd)
  = example_setup (OS_init 3 rnd).
Proof.
  destruct example_run
    as (r & a & b & s & Hrun & Hl & Hshape & Hroot & (Hr & Ha & Hb)
          & Hc0 & Hc1 & Hc2 & Hc3).
  unfold bind. rewrite Hrun.
  apply (alloc_valid_path s 1 r 5 pp2 Hl Hshape Hroot Hr
           (Z.lor 0x80 a) (Z.lor 0x80 b) (Z.lor 0x80 9)).
  - change (l0Index 5) with 0. now rewrite Z.add_0_r.
  - now apply entryValid_mark.
  - rewrite framePtr_mark by assumption.
    change (l1Index 5) with 0. now rewrite Z.add_0_r.
  - now apply entryValid_mark.
  - rewrite framePtr_mark by assumption.
    change (l2Index 5) with 0. now rewrite Z.add_0_r.
  - reflexivity.
Qed.

Lemma example_translate_slot1 (va : Z) :
  l0Index va = 0 -> l1Index va = 0 -> l2Index va = 1 ->
  then_translate example_setup 1 va (OS_init 3 rnd) = Ok (-1).
Proof.
  intros J0 J1 J2.
  destruct (example_walk va 1 J0 J1 J2)
    as (r & a & b & s & e & Hrun & _ & _ & He & Hwalk).
  unfold then_translate, outcome. rewrite Hrun, Hwalk.
  clear Hrun Hwalk. rewrite (He eq_refl). reflexivity.
Qed.

Lemma example_translate_slot0 (va : Z) :
  l0Index va = 0 -> l1Index va = 0 -> l2Index va = 0 ->
  then_translate example_setup 1 va (OS_init 3 rnd)
  = Ok (Z.lor (9 * 32) (offsetOf va)).
Proof.
  intros J0 J1 J2.
  destruct (example_walk va 0 J0 J1 J2)
    as (r & a & b & s & e & Hrun & _ & He & _ & Hwalk).
  unfold then_translate, outcome. rewrite Hrun, Hwalk.
  clear Hrun Hwalk. rewrite (He eq_refl). reflexivity.
Qed.

End Example.

(** * The tree built by a full run *)

Section Tree.

Lemma page_number_indices (vp : Z) :
  0 <= vp < vaPages ->
  l0Index vp = 0 /\ l1Index vp = 0 /\ 0 <= l2Index vp <= 1.
Proof.
  intros Hvp. unfold vaPages in Hvp.
  assert (Hhigh : forall n, 10 <= n -> Z.testbit vp n = false).
  { intros n Hn. destruct (Z.eq_dec vp 0) as [-> | Hne]; [apply Z.bits_0 |].
    apply Z.bits_above_log2; [lia |].
    apply Z.lt_le_trans with 10; [| assumption].
    apply Z.log2_lt_pow2; lia. }
  rewrite l0Index_bit, l1Index_bit, !Hhigh by lia.
  split; [reflexivity |]. split; [reflexivity |]. apply l2Index_range.
Qed.

Lemma treeInv_same (pid r a b : Z) (k : nat) (s s' : OS) :
  treeInv pid r a b k s ->
  levels s' = levels s -> usedPages s' = usedPages s ->
  memory s' = memory s -> pdbr s' = pdbr s ->
  treeInv pid r a b k s'.
Proof.
  unfold treeInv, shaped. intros (Hl & Hs & Hp & Ht & Hk) El Eu Em Ep.
  now rewrite El, Eu, Em, Ep.
Qed.

Lemma treeInv_mark (pid r a b : Z) (k : nat) (s s' : OS) (f : Z) :
  treeInv pid r a b k s ->
  usedPages s !! Z.to_nat f = Some 0 ->
  levels s' = levels s -> usedPages s' = <[Z.to_nat f := 1]> (usedPages s) ->
  memory s' = memory s -> pdbr s' = pdbr s ->
  treeInv pid r a b (S k) s'.
Proof.
  unfold treeInv, shaped. intros (Hl & Hs & Hp & Ht & Hk) Hf El Eu Em Ep.
  rewrite El, Eu, Em, Ep, length_insert, usedCount_mark by assumption.
  now rewrite Hk.
Qed.

(** On that tree a mapping of a page below [vaPages] takes no frame: it
    writes one of the two leaf slots, or nothing. *)
Lemma alloc_on_tree (pid r a b : Z) (k : nat) (s : OS) (vp pp : Z) :
  treeInv pid r a b k s -> 0 <= vp < vaPages ->
  exists s', allocVirtualPage pid vp pp s = Ok (tt, s') /\
             treeInv pid r a b k s'.
Proof.
  intros Hinv Hvp. pose proof Hinv as (Hl & Hs & Hp & Ht & Hk).
  destruct Ht as ((Hr & Ha & Hb) & (Har & Hbr & Hab) & Hc0 & Hc1 & Hrest & Hleaf).
  destruct (page_number_indices vp Hvp) as (J0 & J1 & J2).
  assert (Hpp : physPages = 128) by reflexivity.
  assert (Hlen : length (memory s) = 4096%nat) by apply Hs.
  destruct (lookup_lt_is_Some_2 (memory s) (Z.to_nat (b * 32 + l2Index vp)))
    as [e2 He2]; [lia |].
  assert (H0 : memory s !! Z.to_nat (r * 32 + l0Index vp) = Some (Z.lor 0x80 a)).
  { now rewrite J0, Z.add_0_r. }
  assert (H1 : memory s !! Z.to_nat (framePtr (Z.lor 0x80 a) * 32 + l1Index vp)
               = Some (Z.lor 0x80 b)).
  { now rewrite framePtr_mark, J1, Z.add_0_r. }
  assert (H2 : memory s !! Z.to_nat (framePtr (Z.lor 0x80 b) * 32 + l2Index vp)
               = Some e2).
  { now rewrite framePtr_mark. }
  destruct (entryValid e2) eqn:V2.
  - exists s. split.
    + apply (alloc_valid_path s pid r vp pp Hl Hs Hp Hr _ _ _ H0
               (entryValid_mark a Ha) H1 (entryValid_mark b Hb) H2 V2).
    + exact Hinv.
  - eexists. split.
    + apply (alloc_leaf s pid r vp pp Hl Hs Hp Hr _ _ _ H0
               (entryValid_mark a Ha) H1 (entryValid_mark b Hb) H2 V2).
    + rewrite framePtr_mark by assumption.
      unfold treeInv, shaped, tableShape. proj_simpl.
      rewrite length_insert.
      split; [assumption |]. split; [assumption |]. split; [assumption |].
      split; [| assumption].
      split; [auto |]. split; [auto |].
      split; [rewrite list_lookup_insert_ne by lia; assumption |].
      split; [rewrite list_lookup_insert_ne by lia; assumption |].
      split.
      * intros j Hj. destruct (Hrest j Hj) as [Hrj Haj].
        rewrite !list_lookup_insert_ne by lia. now split.
      * intros j Hj. rewrite list_lookup_insert_ne by lia. now apply Hleaf.
Qed.

(** The first mapping after the creation of the root builds the tree. *)
Lemma alloc_first (pid r : Z) (k : nat) (s : OS) (vp pp : Z) :
  levels s = 3 -> shaped s -> pdbr s !! pid = Some r ->
  0 <= r < physPages ->
  usedPages s !! Z.to_nat r = Some 1 ->
  (forall j, 0 <= j < 32 -> memory s !! Z.to_nat (r * 32 + j) = Some 0x7F) ->
  (2 <= freeCount (usedPages s))%nat ->
  usedCount (usedPages s) = k ->
  0 <= vp < vaPages ->
  exists a b s',
    allocVirtualPage pid vp pp s = Ok (tt, s') /\
    treeInv pid r a b (S (S k)) s'.
Proof.
  intros Hl Hs Hp Hr Hur Hroot Hfree Hk Hvp.
  destruct (page_number_indices vp Hvp) as (J0 & J1 & J2).
  assert (Hpp : physPages = 128) by reflexivity.
  destruct (alloc_fresh_path s pid r vp pp Hl Hs Hp Hr 0x7F 1)
    as (a & b & s' & Hrun & [Ha Hb] & (Har & Hbr & Hab) & [Haz Hbz] & Hu & Hp'
          & Hl' & Hm & Hget); try assumption; try lia.
  { rewrite J0. apply Hroot. lia. }
  { reflexivity. }
  rewrite J0, J1 in Hget.
  exists a, b, s'. split; [assumption |].
  unfold treeInv, shaped, tableShape.
  split; [congruence |].
  split. { split; [| assumption]. rewrite Hu, !length_insert. apply Hs. }
  split; [congruence |].
  split.
  - split; [auto |]. split; [auto |].
    split. { rewrite Hget. repeat case_decide; try lia. reflexivity. }
    split. { rewrite Hget. repeat case_decide; try lia. reflexivity. }
    split.
    + intros j Hj. split; rewrite Hget; repeat case_decide; try lia.
      * apply Hroot. lia.
      * reflexivity.
    + intros j Hj. rewrite Hget. repeat case_decide; try lia. reflexivity.
  - rewrite Hu, !usedCount_mark; [now rewrite Hk | assumption |].
    rewrite list_lookup_insert_ne by lia. assumption.
Qed.

(** The iterations of [procAlloc] after the first: one more frame marked
    used and one more virtual page per iteration, the tree as it was. *)
Lemma allocLoop_tree (fuel : nat) (pid r a b : Z) :
  forall (n : nat) (allocated : gset Z) (k : nat) (s : OS) res s',
    treeInv pid r a b k s ->
    allocLoop fuel pid n allocated s = Ok (res, s') ->
    treeInv pid r a b (k + n) s' /\ size res = (size allocated + n)%nat.
Proof.
  induction n as [| n IH]; intros allocated k s res s' Hinv Hrun.
  - simpl in Hrun. unfold ret in Hrun. injection Hrun as <- <-.
    rewrite !Nat.add_0_r. now split.
  - simpl in Hrun.
    apply bind_inv in Hrun as (vp0 & s1 & Hr1 & Hrun).
    apply randint_inv in Hr1 as (Hvp0 & El1 & Eu1 & Em1 & Ep1);
      [| unfold vaPages; lia].
    apply bind_inv in Hrun as (vp & s2 & Hr2 & Hrun).
    apply redraw_inv in Hr2 as ((Hvp & Hnew) & El2 & Eu2 & Em2 & Ep2);
      [| unfold vaPages in *; lia].
    apply bind_inv in Hrun as (pp & s3 & Hr3 & Hrun).
    assert (Hinv2 : treeInv pid r a b k s2).
    { apply (treeInv_same _ _ _ _ _ s); [assumption | congruence ..]. }
    apply findFree_inv in Hr3 as (Hpp & Hz & Eu3 & Em3 & Ep3 & El3);
      [| apply Hinv2].
    assert (Hinv3 : treeInv pid r a b (S k) s3).
    { now apply (treeInv_mark _ _ _ _ _ s2 s3 pp). }
    apply bind_inv in Hrun as ([] & s4 & Hr4 & Hrun).
    destruct (alloc_on_tree pid r a b (S k) s3 vp pp Hinv3 Hvp)
      as (s4' & Hr4' & Hinv4).
    rewrite Hr4' in Hr4. injection Hr4 as <-.
    apply (IH _ _ _ _ _ Hinv4) in Hrun as [Hinv' Hsize].
    split.
    + now replace (k + S n)%nat with (S k + n)%nat by lia.
    + rewrite Hsize, size_union by (now apply disjoint_singleton_r).
      rewrite size_singleton. lia.
Qed.

(** [procAlloc] is the creation of the root followed by the loop. *)
Lemma procAlloc_inv (s0 : OS) (fuel : nat) (pid numPages : Z) vps s :
  shaped s0 ->
  procAlloc fuel pid numPages s0 = Ok (vps, s) ->
  exists r s3 res,
    0 <= r < physPages /\
    usedPages s0 !! Z.to_nat r = Some 0 /\
    usedPages s3 = <[Z.to_nat r := 1]> (usedPages s0) /\
    pdbr s3 = <[pid := r]> (pdbr s0) /\
    levels s3 = levels s0 /\
    length (memory s3) = Z.to_nat physMem /\
    (forall k : nat,
       memory s3 !! k = if decide (r * 32 <= Z.of_nat k < r * 32 + 32)
                        then Some 0x7F else memory s0 !! k) /\
    allocLoop fuel pid (Z.to_nat numPages) ∅ s3 = Ok (res, s) /\
    vps = elements res.
Proof.
  intros [Hu0 Hm0] Hrun. unfold procAlloc in Hrun.
  apply bind_inv in Hrun as (r & s1 & Hr1 & Hrun).
  apply findFree_inv in Hr1 as (Hr & Hrz & Eu1 & Em1 & Ep1 & El1);
    [| assumption].
  apply bind_inv in Hrun as ([] & s2 & Hr2 & Hrun).
  injection Hr2 as <-.
  apply bind_inv in Hrun as ([] & s3 & Hr3 & Hrun).
  destruct (initPageDir_spec r (with_pdbr s1 (<[pid := r]> (pdbr s1))) Hr)
    as (m3 & Hinit & Hlen3 & Hget3).
  { cbn [memory with_pdbr]. now rewrite Em1. }
  rewrite Hinit in Hr3. injection Hr3 as <-.
  apply bind_inv in Hrun as (res & s' & Hloop & Hret).
  unfold ret in Hret. injection Hret as <- <-.
  exists r, (with_memory (with_pdbr s1 (<[pid := r]> (pdbr s1))) m3), res.
  cbn [memory usedPages pdbr levels with_pdbr with_memory].
  split; [assumption |]. split; [assumption |]. split; [assumption |].
  split; [now rewrite Ep1 |]. split; [assumption |]. split; [assumption |].
  split; [| now split].
  intros k. rewrite Hget3. cbn [memory with_pdbr]. now rewrite Em1.
Qed.

Lemma allocLoop_S (fuel : nat) (pid : Z) (n : nat) (allocated : gset Z) :
  allocLoop fuel pid (S n) allocated =
    (vp0 <- randint 0 (vaPages - 1) ;;
     vp <- redraw fuel allocated vp0 ;;
     pp <- findFree ;;
     allocVirtualPage pid vp pp ;;;
     allocLoop fuel pid n (allocated ∪ {[vp]})).
Proof. reflexivity. Qed.

(** The loop on a machine whose root directory is still empty. *)
Lemma allocLoop_first (fuel : nat) (pid r : Z) (k n : nat) (s3 s : OS) res :
  levels s3 = 3 -> shaped s3 -> pdbr s3 !! pid = Some r ->
  0 <= r < physPages ->
  usedPages s3 !! Z.to_nat r = Some 1 ->
  (forall j, 0 <= j < 32 -> memory s3 !! Z.to_nat (r * 32 + j) = Some 0x7F) ->
  (3 <= freeCount (usedPages s3))%nat ->
  usedCount (usedPages s3) = k ->
  allocLoop fuel pid (S n) ∅ s3 = Ok (res, s) ->
  exists a b, treeInv pid r a b (k + 3 + n) s /\ size res = S n.
Proof.
  intros Hl Hs Hp Hr Hur Hroot Hfree Hk Hloop.
  rewrite allocLoop_S in Hloop.
  apply bind_inv in Hloop as (vp0 & t1 & Ht1 & Hloop).
  apply randint_inv in Ht1 as (Hvp0 & El4 & Eu4 & Em4 & Ep4);
    [| unfold vaPages; lia].
  apply bind_inv in Hloop as (vp & t2 & Ht2 & Hloop).
  apply redraw_inv in Ht2 as ((Hvp & Hnew) & El5 & Eu5 & Em5 & Ep5);
    [| unfold vaPages in *; lia].
  apply bind_inv in Hloop as (pp & t3 & Ht3 & Hloop).
  destruct Hs as [Hsu Hsm].
  apply findFree_inv in Ht3 as (Hppr & Hppz & Eu6 & Em6 & Ep6 & El6);
    [| congruence].
  apply bind_inv in Hloop as ([] & t4 & Ht4 & Hloop).
  rewrite Eu5, Eu4 in Eu6, Hppz.
  assert (Hne : Z.to_nat pp <> Z.to_nat r) by (intros E; congruence).
  destruct (alloc_first pid r (S k) t3 vp pp) as (a & b & t4' & Hrun4 & Hinv4);
    try assumption.
  { congruence. }
  { split.
    - rewrite Eu6, length_insert. assumption.
    - congruence. }
  { congruence. }
  { rewrite Eu6, list_lookup_insert_ne by auto. assumption. }
  { intros j Hj. rewrite Em6, Em5, Em4. now apply Hroot. }
  { rewrite Eu6, freeCount_mark by assumption. lia. }
  { rewrite Eu6, usedCount_mark by assumption. now rewrite Hk. }
  rewrite Hrun4 in Ht4. injection Ht4 as <-.
  apply (allocLoop_tree fuel pid r a b n _ _ _ _ _ Hinv4) in Hloop
    as [Hinv Hsize].
  exists a, b. split.
  - now replace (k + 3 + n)%nat with (S (S (S k)) + n)%nat by lia.
  - rewrite Hsize, union_empty_l_L, size_singleton. lia.
Qed.

(** A full run of [procAlloc] for at least one page, on a fresh 3-level
    machine, whatever the generator draws. *)
Lemma procAlloc_tree (rnd : nat -> Z) (fuel : nat) (pid : Z) (n : nat) vps s :
  procAlloc fuel pid (Z.of_nat (S n)) (OS_init 3 rnd) = Ok (vps, s) ->
  exists r a b,
    treeInv pid r a b (S n + 3) s /\ length vps = S n.
Proof.
  intros Hrun.
  apply procAlloc_inv in Hrun
    as (r & s3 & res & Hr & Hrz & Eu & Ep & El & Hlen & Hget & Hloop & ->);
    [| apply OS_init_shaped].
  rewrite Nat2Z.id in Hloop.
  change (usedPages (OS_init 3 rnd)) with (replicate 128 0) in Hrz, Eu.
  destruct (allocLoop_first fuel pid r 1 n s3 s res) as (a & b & Hinv & Hsize);
    try assumption.
  - split; [| assumption]. rewrite Eu, length_insert. reflexivity.
  - rewrite Ep. apply lookup_insert_eq.
  - rewrite Eu. apply list_lookup_insert_eq. eapply lookup_lt_Some; eauto.
  - intros j Hj. rewrite Hget. case_decide; [reflexivity | lia].
  - rewrite Eu, freeCount_mark, fresh_freeCount by assumption. simpl. lia.
  - rewrite Eu, usedCount_mark, fresh_usedCount by assumption. reflexivity.
  - exists r, a, b. split.
    + now replace (S n + 3)%nat with (1 + 3 + n)%nat by lia.
    + exact Hsize.
Qed.

(** The census of that tree. *)
Lemma page_lookup (m : list Z) (p : Z) (j : nat) :
  0 <= p -> (j < 32)%nat ->
  page m p !! j = m !! Z.to_nat (p * 32 + Z.of_nat j).
Proof.
  intros Hp Hj. unfold page, pageSize.
  rewrite lookup_take_lt by (change (Z.to_nat 32) with 32%nat; lia).
  rewrite lookup_drop. f_equal. lia.
Qed.

Lemma page_sentinels (m : list Z) (p : Z) (x : Z) :
  0 <= p -> m !! Z.to_nat (p * 32) = Some x ->
  (forall j, 1 <= j < 32 -> m !! Z.to_nat (p * 32 + j) = Some 0x7F) ->
  page m p = x :: replicate 31 0x7F.
Proof.
  intros Hp H0 Hrest. apply list_eq. intros j.
  destruct (Nat.lt_ge_cases j 32) as [Hlt | Hge].
  - rewrite page_lookup by assumption.
    destruct j as [| j].
    + change (Z.of_nat 0) with 0. now rewrite Z.add_0_r.
    + rewrite Hrest by lia.
      change ((x :: replicate 31 127) !! S j) with (replicate 31 127 !! j).
      symmetry. apply lookup_replicate_2. lia.
  - rewrite (lookup_ge_None_2 (page m p)).
    + symmetry. apply lookup_ge_None_2.
      rewrite length_cons, length_replicate. lia.
    + unfold page. rewrite length_take. unfold pageSize.
      change (Z.to_nat 32) with 32%nat. lia.
Qed.

Lemma tree_census (pid r a b : Z) (k : nat) (s : OS) :
  treeInv pid r a b k s ->
  exists mapped,
    frameCensus s pid = Some (k, 1, 1, mapped)%nat /\ (mapped <= 2)%nat.
Proof.
  intros (Hl & Hs & Hp & Ht & Hk).
  destruct Ht as ((Hr & Ha & Hb) & (Har & Hbr & Hab) & Hc0 & Hc1 & Hrest & Hleaf).
  assert (Pr : page (memory s) r = Z.lor 0x80 a :: replicate 31 0x7F).
  { apply page_sentinels; [lia | assumption |]. intros j Hj. now apply Hrest. }
  assert (Pa : page (memory s) a = Z.lor 0x80 b :: replicate 31 0x7F).
  { apply page_sentinels; [lia | assumption |]. intros j Hj. now apply Hrest. }
  assert (Vr : validPtrs (memory s) r = [a]).
  { unfold validPtrs, validEntries. rewrite Pr.
    rewrite filter_cons_True by now apply entryValid_mark.
    change (filter _ (replicate 31 127)) with (@nil Z).
    simpl. now rewrite framePtr_mark. }
  assert (Va : validPtrs (memory s) a = [b]).
  { unfold validPtrs, validEntries. rewrite Pa.
    rewrite filter_cons_True by now apply entryValid_mark.
    change (filter _ (replicate 31 127)) with (@nil Z).
    simpl. now rewrite framePtr_mark. }
  assert (L1 : l1Dirs (memory s) r = [a]).
  { unfold l1Dirs. rewrite Vr. reflexivity. }
  assert (L2 : l2Dirs (memory s) r = [b]).
  { unfold l2Dirs. rewrite L1. simpl. rewrite Va, app_nil_r. reflexivity. }
  assert (Hlen : length (memory s) = 4096%nat) by apply Hs.
  assert (Hpp : physPages = 128) by reflexivity.
  destruct (lookup_lt_is_Some_2 (memory s) (Z.to_nat (b * 32))) as [x0 Hx0];
    [lia |].
  destruct (lookup_lt_is_Some_2 (memory s) (Z.to_nat (b * 32 + 1))) as [x1 Hx1];
    [lia |].
  assert (Pb : page (memory s) b = x0 :: x1 :: replicate 30 0x7F).
  { apply list_eq. intros j.
    destruct (Nat.lt_ge_cases j 32) as [Hlt | Hge].
    - rewrite page_lookup by (assumption || lia).
      destruct j as [| [| j]].
      + change (Z.of_nat 0) with 0. now rewrite Z.add_0_r.
      + exact Hx1.
      + rewrite Hleaf by lia.
        change ((x0 :: x1 :: replicate 30 127) !! S (S j))
          with (replicate 30 127 !! j).
        symmetry. apply lookup_replicate_2. lia.
    - rewrite (lookup_ge_None_2 (page (memory s) b)).
      + symmetry. apply lookup_ge_None_2.
        rewrite !length_cons, length_replicate. lia.
      + unfold page. rewrite length_take. unfold pageSize.
        change (Z.to_nat 32) with 32%nat. lia. }
  exists (length (mappedPages (memory s) r)).
  unfold frameCensus. rewrite Hp, Hk, L1.
  split.
  - rewrite L2. reflexivity.
  - unfold mappedPages. rewrite L2. simpl. rewrite app_nil_r.
    unfold validEntries. rewrite Pb, !filter_cons.
    change (filter _ (replicate 30 127)) with (@nil Z).
    repeat case_decide; simpl; lia.
Qed.

End Tree.

(** * The table of roots is written by [procAlloc] only *)

Section KeepsPdbr.

Lemma keeps_ret {A} (a : A) : keeps_pdbr (ret a).
Proof. intros s x s' H. now injection H as <- <-. Qed.

Lemma keeps_raise {A} (e : exn) : keeps_pdbr (@raise A e).
Proof. intros s x s' H. discriminate. Qed.

Lemma keeps_lift {A} (r : result A) : keeps_pdbr (lift r).
Proof.
  intros s x s' H. unfold lift in H.
  destruct r; [now injection H as <- <- | discriminate].
Qed.

Lemma keeps_bind {A B} (m : M A) (f : A -> M B) :
  keeps_pdbr m -> (forall a, keeps_pdbr (f a)) -> keeps_pdbr (bind m f).
Proof.
  intros Hm Hf s b s' H.
  apply bind_inv in H as (a & s1 & H1 & H2).
  rewrite (Hf a _ _ _ H2). now apply (Hm _ _ _ H1).
Qed.

Lemma keeps_ext {A} (m m' : M A) :
  (forall s, m s = m' s) -> keeps_pdbr m' -> keeps_pdbr m.
Proof. intros E H s a s' Hr. rewrite E in Hr. now apply (H _ _ _ Hr). Qed.

Lemma keeps_memget (i : Z) : keeps_pdbr (memget i).
Proof. intros s x s' H. unfold memget in H. now apply keeps_lift in H. Qed.

Lemma keeps_memset (i v : Z) : keeps_pdbr (memset i v).
Proof.
  intros s x s' H. unfold memset in H.
  destruct (setitem (memory s) i v); [now injection H as <- <- | discriminate].
Qed.

Lemma keeps_pdbr_get (pid : Z) : keeps_pdbr (pdbr_get pid).
Proof.
  intros s x s' H. unfold pdbr_get in H.
  destruct (pdbr s !! pid); [now injection H as <- <- | discriminate].
Qed.

Lemma keeps_local {A} (v : option A) : keeps_pdbr (local v).
Proof. destruct v; [apply keeps_ret | apply keeps_raise]. Qed.

Lemma keeps_for_each {A} (xs : list A) (body : A -> M unit) :
  (forall x, keeps_pdbr (body x)) -> keeps_pdbr (for_each xs body).
Proof.
  intros Hb. induction xs as [| x xs IH]; simpl.
  - apply keeps_ret.
  - apply keeps_bind; [apply Hb | intros _; exact IH].
Qed.

Lemma keeps_randbelow (n : Z) : keeps_pdbr (randbelow n).
Proof. intros s x s' H. unfold randbelow in H. now injection H as <- <-. Qed.

Lemma keeps_choice (l : list Z) : keeps_pdbr (choice l).
Proof.
  destruct l; [apply keeps_raise |].
  apply keeps_bind; [apply keeps_randbelow | intros k; apply keeps_lift].
Qed.

Lemma keeps_randint (a b : Z) : keeps_pdbr (randint a b).
Proof.
  apply keeps_bind; [apply keeps_randbelow | intros k; apply keeps_ret].
Qed.

Lemma keeps_findFree : keeps_pdbr findFree.
Proof.
  intros s f s' H. unfold findFree in H.
  apply bind_inv in H as (free & s1 & H1 & H).
  apply keeps_lift in H1.
  apply bind_inv in H as (g & s2 & H2 & H).
  apply keeps_choice in H2.
  destruct (setitem (usedPages s2) g 1); [| discriminate].
  injection H as <- <-. cbn [pdbr with_usedPages]. congruence.
Qed.

Lemma keeps_initPageDir (p : Z) : keeps_pdbr (initPageDir p).
Proof. apply keeps_for_each. intros i. apply keeps_memset. Qed.

Lemma keeps_self_levels : keeps_pdbr self_levels.
Proof. intros s x s' H. unfold self_levels in H. now injection H as <- <-. Qed.

Lemma keeps_allocVirtualPage (pid vp pp : Z) :
  keeps_pdbr (allocVirtualPage pid vp pp).
Proof.
  unfold allocVirtualPage.
  apply keeps_bind; [apply keeps_self_levels | intros lv].
  apply keeps_bind.
  { destruct (3 <=? lv); [| apply keeps_ret].
    apply keeps_bind; [apply keeps_pdbr_get | intros root].
    apply keeps_bind; [apply keeps_memget | intros e].
    destruct (Z.land e 128 =? 0); [| apply keeps_ret].
    apply keeps_bind; [apply keeps_findFree | intros f].
    apply keeps_bind; [apply keeps_memset | intros _].
    apply keeps_bind; [apply keeps_initPageDir | intros _; apply keeps_ret]. }
  intros l1Page. apply keeps_bind.
  { destruct (lv =? 3); [apply keeps_local | apply keeps_pdbr_get]. }
  intros base. apply keeps_bind; [apply keeps_memget | intros e1].
  apply keeps_bind.
  { destruct (Z.land e1 128 =? 0); [| apply keeps_ret].
    apply keeps_bind; [apply keeps_findFree | intros f].
    apply keeps_bind; [apply keeps_memset | intros _].
    apply keeps_bind; [apply keeps_initPageDir | intros _; apply keeps_ret]. }
  intros l2Page. apply keeps_bind; [apply keeps_memget | intros e2].
  destruct (Z.land e2 128 =? 0); [apply keeps_memset | apply keeps_ret].
Qed.

Lemma keeps_redraw (fuel : nat) (allocated : gset Z) :
  forall vp, keeps_pdbr (redraw fuel allocated vp).
Proof.
  induction fuel as [| fuel IH]; intros vp; simpl;
    destruct (decide (vp ∈ allocated)).
  - apply keeps_raise.
  - apply keeps_ret.
  - apply keeps_bind; [apply keeps_randint | intros v; apply IH].
  - apply keeps_ret.
Qed.

Lemma keeps_allocLoop (fuel : nat) (pid : Z) (n : nat) :
  forall allocated, keeps_pdbr (allocLoop fuel pid n allocated).
Proof.
  induction n as [| n IH]; intros allocated.
  - apply keeps_ret.
  - rewrite allocLoop_S.
    apply keeps_bind; [apply keeps_randint | intros vp0].
    apply keeps_bind; [apply keeps_redraw | intros vp].
    apply keeps_bind; [apply keeps_findFree | intros pp].
    apply keeps_bind; [apply keeps_allocVirtualPage | intros _; apply IH].
Qed.

End KeepsPdbr.

(** * Properties of the address fields *)

(** C2. The index fields that [translate] computes are not the bit fields
    15..11, 10..6 and 5..1 of the address: each mask selects five bits but the
    shift that follows keeps only the topmost of them.  At the in-range
    addresses [0x0800], [0x0040] and [0x0002] the three indices are [0] while
    the bit fields are [1].  Only the offset is the stated field, bits 4..0. *)
Theorem index_fields_are_single_bits :
  (forall a, l0Index a = Z.b2z (Z.testbit a 15) /\
             l1Index a = Z.b2z (Z.testbit a 10) /\
             l2Index a = Z.b2z (Z.testbit a 5) /\
             offsetOf a = bitField 4 0 a) /\
  0 <= 0x0800 < vaSize /\ l0Index 0x0800 = 0 /\ bitField 15 11 0x0800 = 1 /\
  l1Index 0x0040 = 0 /\ bitField 10 6 0x0040 = 1 /\
  l2Index 0x0002 = 0 /\ bitField 5 1 0x0002 = 1.
Proof.
  split.
  - intros a. split; [apply l0Index_bit |].
    split; [apply l1Index_bit |]. split; [apply l2Index_bit |].
    unfold offsetOf, bitField. now rewrite Z.shiftr_0_r.
  - repeat split; reflexivity || (unfold vaSize, pageSize, vaPages; lia).
Qed.

(** * Properties of the walk *)

(** C5. In a 3-level walk the first entry whose valid bit (bit 7) is clear
    ends the walk: [translate] returns [-3], [-2] or [-1] for a fault at level
    0, 1 or 2, having read memory only at the entries up to and including the
    invalid one; and a negative result is always one of these three. *)
Theorem translate_faults_at_first_invalid (s : OS) (pid va root : Z) :
  levels s = 3 ->
  pdbr s !! pid = Some root ->
  let i0 := Z.shiftl root pageBits + l0Index va in
  let i1 e0 := Z.shiftl (framePtr e0) pageBits + l1Index va in
  let i2 e1 := Z.shiftl (framePtr e1) pageBits + l2Index va in
  (forall e0,
      getitem (memory s) i0 = Ok e0 -> entryValid e0 = false ->
      translate s pid va = ([i0], Ok (-3))) /\
  (forall e0 e1,
      getitem (memory s) i0 = Ok e0 -> entryValid e0 = true ->
      getitem (memory s) (i1 e0) = Ok e1 -> entryValid e1 = false ->
      translate s pid va = ([i0; i1 e0], Ok (-2))) /\
  (forall e0 e1 e2,
      getitem (memory s) i0 = Ok e0 -> entryValid e0 = true ->
      getitem (memory s) (i1 e0) = Ok e1 -> entryValid e1 = true ->
      getitem (memory s) (i2 e1) = Ok e2 -> entryValid e2 = false ->
      translate s pid va = ([i0; i1 e0; i2 e1], Ok (-1))) /\
  (forall r, outcome s pid va = Ok r -> r < 0 -> r = -3 \/ r = -2 \/ r = -1).
Proof.
  intros Hlv Hroot i0 i1 i2. repeat split.
  - intros e0. now apply walk3_fault0.
  - intros e0 e1. now apply walk3_fault1.
  - intros e0 e1 e2. now apply walk3_fault2.
  - intros r. apply translate_result_sign.
Qed.

Lemma translate_faults_at_first_invalid_witness :
  translate example_state 1 (5 * 32 + 7) = ([0; 32; 65], Ok (-1)).
Proof.
  pose proof (translate_faults_at_first_invalid example_state 1 (5 * 32 + 7) 0
                eq_refl eq_refl) as (_ & _ & H & _).
  apply (H 129 130 127); vm_compute; reflexivity.
Defined.

(** C10. When [pid] has a root that is a frame number, every index at which
    [translate] reads [memory] lies in [[0, physMem)], whatever integer the
    virtual address is: each level index that the masks and shifts produce is
    0 or 1 and each frame pointer that the walk follows is masked to 7 bits.
    With the memory array at its size no read raises and the walk returns. *)
Theorem translate_reads_in_bounds (s : OS) (pid va root : Z) :
  pdbr s !! pid = Some root ->
  0 <= root < physPages ->
  (0 <= l0Index va <= 1 /\ 0 <= l1Index va <= 1 /\ 0 <= l2Index va <= 1) /\
  (forall entry, 0 <= framePtr entry < physPages) /\
  Forall (fun i => 0 <= i < physMem) (reads s pid va) /\
  (length (memory s) = Z.to_nat physMem -> exists r, outcome s pid va = Ok r).
Proof.
  intros Hroot Hrange.
  split; [auto using l0Index_range, l1Index_range, l2Index_range |].
  split; [apply framePtr_range |].
  split.
  - now apply translate_reads_bounded with (root := root).
  - intros Hlen. now apply translate_no_exception with (root := root).
Qed.

Lemma translate_reads_in_bounds_witness :
  Forall (fun i => 0 <= i < physMem) (reads example_state 1 (-12345)) /\
  (length (memory example_state) = Z.to_nat physMem ->
   exists r, outcome example_state 1 (-12345) = Ok r).
Proof.
  apply (translate_reads_in_bounds example_state 1 (-12345) 0).
  - reflexivity.
  - unfold physPages. lia.
Defined.

(** * Properties of the allocator *)

(** C7. Any run of calls of [findFree] for which enough frames are free
    returns pairwise distinct frames; each of them was unused before the run
    and is marked used after it. *)
Theorem findFree_never_repeats (s : OS) (n : nat) :
  length (usedPages s) = Z.to_nat physPages ->
  (n <= freeCount (usedPages s))%nat ->
  exists fs s',
    findFreeN n s = Ok (fs, s') /\
    length fs = n /\
    NoDup fs /\
    Forall (fun f => 0 <= f < physPages /\
                     getitem (usedPages s) f = Ok 0 /\
                     getitem (usedPages s') f = Ok 1) fs.
Proof.
  intros Hlen Hn.
  destruct (findFreeN_spec n s Hlen Hn)
    as (fs & s' & Hrun & Hl & Hnd & Hlen' & _ & _ & _ & _ & _ & Hall).
  exists fs, s'. repeat (split; [assumption |]).
  eapply Forall_impl; [exact Hall |].
  intros f (Hf & H0 & H1). split; [assumption |].
  split; apply getitem_lookup; try assumption;
    rewrite ?Hlen, ?Hlen', Z2Nat.id by (unfold physPages; lia); lia.
Qed.

Lemma findFree_never_repeats_witness :
  exists fs s',
    findFreeN 127 (OS_init 3 draws_count) = Ok (fs, s') /\
    length fs = 127%nat /\
    NoDup fs /\
    Forall (fun f => 0 <= f < physPages /\
                     getitem (usedPages (OS_init 3 draws_count)) f = Ok 0 /\
                     getitem (usedPages s') f = Ok 1) fs.
Proof.
  apply (findFree_never_repeats (OS_init 3 draws_count) 127).
  - reflexivity.
  - vm_compute. lia.
Defined.

(** On a fresh machine every run of at most [physPages] calls qualifies. *)
Lemma findFree_fresh_machine (lv : Z) (rnd : nat -> Z) (n : nat) :
  (n <= 128)%nat ->
  exists fs s',
    findFreeN n (OS_init lv rnd) = Ok (fs, s') /\
    length fs = n /\ NoDup fs /\
    Forall (fun f => 0 <= f < physPages /\
                     usedPages s' !! Z.to_nat f = Some 1) fs.
Proof.
  intros Hn.
  destruct (findFreeN_spec n (OS_init lv rnd) eq_refl)
    as (fs & s' & Hrun & Hl & Hnd & _ & _ & _ & _ & _ & _ & Hall).
  { change (usedPages (OS_init lv rnd)) with (replicate 128 0).
    now rewrite fresh_freeCount. }
  exists fs, s'. repeat (split; [assumption |]).
  eapply Forall_impl; [exact Hall |]. intros f (Hf & _ & H1). now split.
Qed.

(** C9, as the code has it.  [procAlloc] for a pid that already has a root
    does not fail for that reason: with no page to allocate it returns, and
    whenever it returns, [pdbr[pid]] is a frame that was free before the call,
    hence not the old root; in the returning case shown, the new root holds
    the invalid sentinel in every slot and the frame of the old root stays
    marked used. *)
Theorem procAlloc_overwrites_root (s : OS) (fuel : nat) (pid old : Z) :
  shaped s ->
  pdbr s !! pid = Some old ->
  0 <= old < physPages ->
  getitem (usedPages s) old = Ok 1 ->
  (0 < freeCount (usedPages s))%nat ->
  (exists new s',
     procAlloc fuel pid 0 s = Ok ([], s') /\
     pdbr s' !! pid = Some new /\
     new <> old /\
     0 <= new < physPages /\
     getitem (usedPages s') old = Ok 1 /\
     getitem (usedPages s') new = Ok 1 /\
     Forall (fun e => e = 0x7F) (page (memory s') new)) /\
  (forall numPages vps s',
     procAlloc fuel pid numPages s = Ok (vps, s') ->
     exists new,
       pdbr s' !! pid = Some new /\ new <> old /\
       getitem (usedPages s) new = Ok 0).
Proof.
  intros Hshape Hold Hrange Hused Hfree.
  assert (Hin : forall f, 0 <= f < physPages ->
                  0 <= f < Z.of_nat (length (usedPages s))).
  { intros f Hf. destruct Hshape as [Hu _].
    rewrite Hu, Z2Nat.id by (unfold physPages; lia). lia. }
  apply getitem_lookup in Hused; [| now apply Hin].
  split.
  - destruct (procAlloc_root s fuel pid Hshape Hfree)
      as (r & s' & Hrun & Hr & Hzero & Hu' & Hp' & _ & Hlen & Hget).
    assert (Hne : r <> old) by (intros ->; congruence).
    exists r, s'. split; [assumption |].
    split; [rewrite Hp'; apply lookup_insert_eq |].
    split; [assumption |]. split; [assumption |].
    assert (Hin' : forall f, 0 <= f < physPages ->
                     0 <= f < Z.of_nat (length (usedPages s'))).
    { intros f Hf. rewrite Hu', length_insert. now apply Hin. }
    split; [| split].
    + apply getitem_lookup; [now apply Hin' |].
      rewrite Hu', list_lookup_insert_ne by lia. assumption.
    + apply getitem_lookup; [now apply Hin' |].
      rewrite Hu'. apply list_lookup_insert_eq.
      specialize (Hin r Hr). lia.
    + apply Forall_forall. intros e He.
      apply list_elem_of_lookup in He as [j Hj].
      unfold page in Hj. apply lookup_take_Some in Hj as [Hj Hlt].
      rewrite lookup_drop, Hget in Hj.
      unfold pageSize in *. case_decide; [congruence | lia].
  - intros numPages vps s' Hrun.
    apply procAlloc_inv in Hrun
      as (r & s3 & res & Hr & Hrz & _ & Ep & _ & _ & _ & Hloop & _);
      [| assumption].
    apply keeps_allocLoop in Hloop.
    exists r. split; [rewrite Hloop, Ep; apply lookup_insert_eq |].
    split; [intros ->; congruence |].
    apply getitem_lookup; [now apply Hin | assumption].
Qed.

Lemma procAlloc_overwrites_root_witness :
  exists new s',
    procAlloc 0 1 0 example_state = Ok ([], s') /\
    pdbr s' !! 1 = Some new /\
    new <> 0 /\
    0 <= new < physPages /\
    getitem (usedPages s') 0 = Ok 1 /\
    getitem (usedPages s') new = Ok 1 /\
    Forall (fun e => e = 0x7F) (page (memory s') new).
Proof.
  apply (procAlloc_overwrites_root example_state 0 1 0).
  - split; vm_compute; reflexivity.
  - reflexivity.
  - unfold physPages. lia.
  - vm_compute. reflexivity.
  - vm_compute. lia.
Defined.

(** C9 fails as stated: a second root creation for process 1 returns, and
    [pdbr[1]] moves from frame 0 to frame 1. *)
Lemma procAlloc_twice_replaces_root :
  exists s1 s2,
    procAlloc 0 1 0 (OS_init 3 draws_zero) = Ok ([], s1) /\
    procAlloc 0 1 0 s1 = Ok ([], s2) /\
    pdbr s1 !! 1 = Some 0 /\
    pdbr s2 !! 1 = Some 1 /\
    s2 <> s1.
Proof.
  eexists. eexists.
  split; [vm_compute; reflexivity |].
  split; [vm_compute; reflexivity |].
  split; [reflexivity |]. split; [reflexivity |].
  intros H. apply (f_equal (fun s => pdbr s !! 1)) in H. discriminate H.
Qed.

(** * Properties of the mapping *)

(** C1. The end-to-end example of the mapping property, run on the code:
    after the root of process 1 is created and [allocVirtualPage(1, 5, 9)] is
    called, [translate(1, 5*32 + 7)] returns the level-2 fault [-1] and not
    the physical address [295], whatever frames the allocator draws.  The
    mapping call indexes the level-2 table with bit 5 of the page number (slot
    0), the walk with bit 5 of the address (slot 1). *)
Theorem mapped_address_faults (rnd : nat -> Z) :
  then_translate example_setup 1 (5 * 32 + 7) (OS_init 3 rnd) = Ok (-1).
Proof. apply example_translate_slot1; reflexivity. Qed.

(** C3. The unmapped page of the end-to-end example, run on the code: after
    the root of process 1 is created and only virtual page 5 is mapped (to
    frame 9), [translate(1, 6*32)] returns the physical address [9*32] and
    no fault, whatever frames the allocator draws, although virtual page 6
    was never passed to [allocVirtualPage]. *)
Theorem unmapped_address_translates (rnd : nat -> Z) :
  then_translate example_setup 1 (6 * 32) (OS_init 3 rnd) = Ok (9 * 32).
Proof. apply (example_translate_slot0 rnd (6 * 32)); reflexivity. Qed.

(** C4. Mapping virtual page 5 a second time, to frame 10, run on the code:
    the second call leaves the machine as the first call left it, so the leaf
    entry keeps frame 9; but [translate(1, 5*32 + 7)] returns the level-2
    fault [-1] afterwards, not the address [9*32 + 7] in frame 9. *)
Theorem remapped_address_faults (rnd : nat -> Z) :
  (example_setup ;;; allocVirtualPage 1 5 10) (OS_init 3 rnd)
    = example_setup (OS_init 3 rnd) /\
  then_translate (example_setup ;;; allocVirtualPage 1 5 10) 1 (5 * 32 + 7)
    (OS_init 3 rnd) = Ok (-1).
Proof.
  split; [apply example_second_alloc |].
  rewrite (then_translate_ext _ _ 1 (5 * 32 + 7) _ (example_second_alloc rnd 10)).
  apply example_translate_slot1; reflexivity.
Qed.

(** * Properties of the frame accounting *)

(** C6. A full allocation run on the code, [procAlloc(1, 3)] on a fresh
    3-level machine with the draws [0, 1, 2, ...]: the run returns three
    virtual pages and leaves 6 frames marked used, while the tree of process 1
    has one level-1 directory, one level-2 table and one mapped page, so that
    [1 + 1 + 1 + 1 = 4] frames are accounted for. *)
Theorem full_run_census :
  match procAlloc 8 1 3 (OS_init 3 draws_count) with
  | Ok (vps, s) => Some (length vps, frameCensus s 1)
  | Raise _ => None
  end = Some (3%nat, Some (6, 1, 1, 1)%nat).
Proof. vm_compute. reflexivity. Qed.

(** The same for the program's default of 64 pages: 67 frames are marked
    used and [1 + 1 + 1 + 2 = 5] are accounted for. *)
Lemma default_run_census :
  match procAlloc 8 1 64 (OS_init 3 draws_count) with
  | Ok (vps, s) => Some (length vps, frameCensus s 1)
  | Raise _ => None
  end = Some (64%nat, Some (67, 1, 1, 2)%nat).
Proof. vm_compute. reflexivity. Qed.

(** And for every run that returns, whatever the generator draws: [n + 1]
    pages leave [n + 4] frames marked used, namely the root, one level-1
    directory, one level-2 table and one frame per page, of which at most two
    are mapped. *)
Lemma every_run_census (rnd : nat -> Z) (fuel : nat) (pid : Z) (n : nat) vps s :
  procAlloc fuel pid (Z.of_nat (S n)) (OS_init 3 rnd) = Ok (vps, s) ->
  length vps = S n /\
  exists mapped,
    frameCensus s pid = Some (1 + 1 + 1 + S n, 1, 1, mapped)%nat /\
    (mapped <= 2)%nat.
Proof.
  intros Hrun.
  apply procAlloc_tree in Hrun as (r & a & b & Hinv & Hlen).
  split; [assumption |].
  destruct (tree_census pid r a b _ s Hinv) as (mapped & Hc & Hm).
  exists mapped. split; [| assumption].
  now replace (1 + 1 + 1 + S n)%nat with (S n + 3)%nat by lia.
Qed.

(** * Further properties of the walk *)

Section WalkMore.

Lemma lor_frame_offset (p o : Z) :
  0 <= o < 32 -> Z.lor (Z.shiftl p pageBits) o = p * 32 + o.
Proof.
  intros Ho. rewrite <- shiftl_pageBits.
  assert (Hdisj : Z.land (Z.shiftl p pageBits) o = 0).
  { apply Z.bits_inj'. intros n Hn. rewrite Z.land_spec, Z.bits_0.
    unfold pageBits.
    destruct (Z.ltb_spec n 5) as [Hlt | Hge].
    - now rewrite Z.shiftl_spec_low.
    - destruct (Z.eq_dec o 0) as [-> | Hne].
      + now rewrite Z.bits_0, andb_false_r.
      + rewrite (Z.bits_above_log2 o n), andb_false_r; [reflexivity | lia |].
        apply Z.lt_le_trans with 5; [| assumption].
        apply Z.log2_lt_pow2; lia. }
  rewrite <- (Z.lxor_lor _ _ Hdisj). symmetry.
  now apply Z.add_nocarry_lxor.
Qed.

Lemma physical_address (e va : Z) :
  Z.lor (Z.shiftl (framePtr e) pageBits) (offsetOf va)
  = framePtr e * 32 + va mod 32.
Proof.
  rewrite lor_frame_offset; rewrite offsetOf_mod; [reflexivity |].
  apply Z.mod_pos_bound. lia.
Qed.

(** Every outcome of a walk that is not an exception: a fault code, or the
    address composed from a leaf entry. *)
Lemma translate_outcomes (s : OS) (pid va r : Z) :
  outcome s pid va = Ok r ->
  r = -3 \/ r = -2 \/ r = -1 \/ exists e, r = framePtr e * 32 + va mod 32.
Proof.
  unfold outcome, translate, translate_L1, translate_L2,
    root_of, wlocal, fetch, wbind, wret.
  intros H.
  repeat (case_match; simpl in *; simplify_eq); auto;
    right; right; right; eexists; apply physical_address.
Qed.

End WalkMore.

(** C8, as the code has it.  [translate] makes no range check.  For a
    process with a root frame, on a memory of full size, every integer
    address, in particular every address at or beyond [vaPages * pageSize],
    is walked like any other: the walk returns, and its result is one of the
    fault codes [-3], [-2], [-1] or a physical address below [physMem], never
    an exception.  The address is only masked: on every machine the walk of
    any address, its reads included, is the walk of that address reduced
    modulo [2^16]. *)
Theorem translate_masks_out_of_range (s : OS) (pid va root : Z) :
  pdbr s !! pid = Some root ->
  0 <= root < physPages ->
  length (memory s) = Z.to_nat physMem ->
  (exists r, outcome s pid va = Ok r /\
             (r = -3 \/ r = -2 \/ r = -1 \/ 0 <= r < physMem)) /\
  (forall s' pid' va', translate s' pid' va' = translate s' pid' (va' mod 65536)).
Proof.
  intros Hroot Hrange Hlen. split.
  - destruct (translate_no_exception s pid va root Hroot Hrange Hlen) as [r Hr].
    exists r. split; [assumption |].
    destruct (translate_outcomes s pid va r Hr) as [-> | [-> | [-> | [e ->]]]];
      auto.
    right. right. right.
    pose proof (framePtr_range e) as He.
    pose proof (Z.mod_pos_bound va 32 ltac:(lia)) as Ho.
    unfold physMem, pageSize, physPages in *. lia.
  - intros s' pid' va'. symmetry. apply translate_wrap.
Qed.

Lemma translate_masks_out_of_range_witness :
  vaSize <= 32768 + 5 /\
  (exists r, outcome example_state 1 (32768 + 5) = Ok r /\
             (r = -3 \/ r = -2 \/ r = -1 \/ 0 <= r < physMem)) /\
  translate example_state 1 (32768 + 5)
    = translate example_state 1 ((32768 + 5) mod 65536).
Proof.
  split; [unfold vaSize, pageSize, vaPages; lia |].
  destruct (translate_masks_out_of_range example_state 1 (32768 + 5) 0)
    as (H1 & H2).
  - reflexivity.
  - unfold physPages. lia.
  - vm_compute. reflexivity.
  - split; [exact H1 | apply H2].
Defined.

(** C8 fails as stated: the address [65536 + 5] is beyond the virtual address
    space, yet it is translated to the physical address [9 * 32 + 5], like the
    address [5]. *)
Lemma translate_accepts_out_of_range :
  vaSize <= 65536 + 5 /\
  then_translate example_setup 1 (65536 + 5) (OS_init 3 draws_zero) = Ok 293 /\
  then_translate example_setup 1 5 (OS_init 3 draws_zero) = Ok 293.
Proof.
  split; [unfold vaSize, pageSize, vaPages; lia |].
  split; vm_compute; reflexivity.
Qed.

(** X1. A walk for a process without a root raises [KeyError] before any
    read of memory, for every level count and every address. *)
Theorem translate_unknown_pid (s : OS) (pid va : Z) :
  pdbr s !! pid = None ->
  translate s pid va = ([], Raise KeyError).
Proof.
  intros Hnone.
  unfold translate, translate_L1, translate_L2, root_of, wlocal, wbind.
  rewrite Hnone.
  destruct (Z.leb_spec 3 (levels s)), (Z.leb_spec 2 (levels s)),
    (Z.eqb_spec (levels s) 3); try lia; reflexivity.
Qed.

Lemma translate_unknown_pid_witness :
  translate (OS_init 3 draws_zero) 1 167 = ([], Raise KeyError).
Proof. apply (translate_unknown_pid (OS_init 3 draws_zero) 1 167). reflexivity. Defined.

(** X2. A result of [translate] that is not negative is an address inside
    physical memory, with the offset of the virtual address: it is below
    [physMem] and congruent to the virtual address modulo the page size. *)
Theorem translate_address_in_memory (s : OS) (pid va r : Z) :
  outcome s pid va = Ok r ->
  0 <= r ->
  r < physMem /\ r mod pageSize = va mod pageSize /\ r / pageSize < physPages.
Proof.
  intros Hout Hr.
  destruct (translate_outcomes s pid va r Hout) as [-> | [-> | [-> | [e ->]]]];
    try lia.
  pose proof (framePtr_range e) as He.
  pose proof (Z.mod_pos_bound va 32 ltac:(lia)) as Ho.
  unfold physMem, pageSize, physPages in *.
  split; [lia |]. split.
  - rewrite Z.add_comm, Z.mod_add by lia. apply Z.mod_mod. lia.
  - rewrite Z.add_comm, Z.div_add by lia. rewrite Z.div_small by lia. lia.
Qed.

Lemma translate_address_in_memory_witness :
  293 < physMem /\ 293 mod pageSize = 5 mod pageSize /\ 293 / pageSize < physPages.
Proof.
  apply (translate_address_in_memory example_state 1 5 293).
  - vm_compute. reflexivity.
  - lia.
Defined.

(** X3. A 3-level walk whose three entries are valid reads exactly these
    three entries and returns the frame of the leaf entry times the page size
    plus the offset of the address. *)
Theorem translate_hit (s : OS) (pid va root e0 e1 e2 : Z) :
  levels s = 3 ->
  pdbr s !! pid = Some root ->
  let i0 := Z.shiftl root pageBits + l0Index va in
  let i1 := Z.shiftl (framePtr e0) pageBits + l1Index va in
  let i2 := Z.shiftl (framePtr e1) pageBits + l2Index va in
  getitem (memory s) i0 = Ok e0 -> entryValid e0 = true ->
  getitem (memory s) i1 = Ok e1 -> entryValid e1 = true ->
  getitem (memory s) i2 = Ok e2 -> entryValid e2 = true ->
  translate s pid va = ([i0; i1; i2], Ok (framePtr e2 * pageSize + va mod pageSize)).
Proof.
  intros Hl Hroot i0 i1 i2 H0 V0 H1 V1 H2 V2.
  rewrite (walk3_hit s pid va root Hl Hroot e0 e1 e2 H0 V0 H1 V1 H2 V2).
  now rewrite physical_address.
Qed.

Lemma translate_hit_witness :
  translate example_state 1 5 = ([0; 32; 64], Ok (9 * pageSize + 5 mod pageSize)).
Proof.
  apply (translate_hit example_state 1 5 0 129 130 137);
    vm_compute; reflexivity.
Defined.

(** X4. With fewer levels the walk starts lower: a 2-level walk reads the
    root as the level-1 directory and then the level-2 table, a 1-level walk
    reads the root as the level-2 table; an invalid entry gives [-2] or [-1]
    as in the 3-level walk. *)
Theorem translate_fewer_levels (s : OS) (pid va root : Z) :
  pdbr s !! pid = Some root ->
  (levels s = 1 ->
   forall e2, getitem (memory s) (Z.shiftl root pageBits + l2Index va) = Ok e2 ->
     translate s pid va =
       ([Z.shiftl root pageBits + l2Index va],
        Ok (if entryValid e2 then framePtr e2 * pageSize + va mod pageSize
            else -1))) /\
  (levels s = 2 ->
   forall e1, getitem (memory s) (Z.shiftl root pageBits + l1Index va) = Ok e1 ->
     (entryValid e1 = false ->
      translate s pid va = ([Z.shiftl root pageBits + l1Index va], Ok (-2))) /\
     (entryValid e1 = true ->
      forall e2,
        getitem (memory s) (Z.shiftl (framePtr e1) pageBits + l2Index va) = Ok e2 ->
        translate s pid va =
          ([Z.shiftl root pageBits + l1Index va;
            Z.shiftl (framePtr e1) pageBits + l2Index va],
           Ok (if entryValid e2 then framePtr e2 * pageSize + va mod pageSize
               else -1)))).
Proof.
  intros Hroot. split.
  - intros Hl e2 H2.
    unfold translate, translate_L1, translate_L2, root_of, fetch, wbind, wret.
    rewrite Hl, Hroot. simpl. rewrite H2, validBit_test.
    destruct (entryValid e2); simpl; [now rewrite physical_address | reflexivity].
  - intros Hl e1 H1. split.
    + intros V1.
      unfold translate, translate_L1, root_of, fetch, wbind, wret.
      rewrite Hl, Hroot. simpl. rewrite H1, validBit_test, V1. reflexivity.
    + intros V1 e2 H2.
      unfold translate, translate_L1, translate_L2, root_of, wlocal, fetch,
        wbind, wret.
      rewrite Hl, Hroot. simpl. rewrite H1, validBit_test, V1. simpl.
      rewrite H2, validBit_test.
      destruct (entryValid e2); simpl; [now rewrite physical_address | reflexivity].
Qed.

Lemma translate_fewer_levels_witness :
  translate two_level_state 1 5 = ([0; 32], Ok (9 * pageSize + 5 mod pageSize)).
Proof.
  pose proof (translate_fewer_levels two_level_state 1 5 0 eq_refl) as [_ H].
  destruct (H eq_refl 129 eq_refl) as [_ H2].
  exact (H2 eq_refl 137 eq_refl).
Defined.

(** * Further properties of the allocator and of the directory initialiser *)

Section Edges.

Lemma for_each_raise_first {A} (x : A) (xs : list A) (body : A -> M unit)
    (s : OS) (e : exn) :
  body x s = Raise e -> for_each (x :: xs) body s = Raise e.
Proof. intros H. simpl. unfold bind. now rewrite H. Qed.

Lemma position_out {A} (l : list A) (i : Z) :
  Z.of_nat (length l) <= i \/ i < - Z.of_nat (length l) ->
  position l i = None.
Proof.
  intros H. unfold position.
  destruct (Z.leb_spec 0 i), (Z.ltb_spec i (Z.of_nat (length l))),
    (Z.leb_spec (- Z.of_nat (length l)) i), (Z.ltb_spec i 0);
    simpl; try reflexivity; lia.
Qed.

Lemma position_wrap {A} (l : list A) (i : Z) :
  - Z.of_nat (length l) <= i < 0 ->
  position l i = position l (i + Z.of_nat (length l)).
Proof.
  intros H. rewrite (position_in l (i + Z.of_nat (length l))) by lia.
  unfold position.
  destruct (Z.leb_spec 0 i), (Z.ltb_spec i (Z.of_nat (length l))),
    (Z.leb_spec (- Z.of_nat (length l)) i), (Z.ltb_spec i 0);
    simpl; try reflexivity; lia.
Qed.

Lemma memset_wrap (s : OS) (i v : Z) :
  - Z.of_nat (length (memory s)) <= i < 0 ->
  memset i v s = memset (i + Z.of_nat (length (memory s))) v s.
Proof. intros H. unfold memset, setitem. now rewrite position_wrap. Qed.

Lemma for_each_cons {A} (x : A) (xs : list A) (body : A -> M unit) (s : OS) :
  for_each (x :: xs) body s =
    match body x s with
    | Ok (_, s') => for_each xs body s'
    | Raise e => Raise e
    end.
Proof. reflexivity. Qed.

Lemma fill_wrap (v : Z) (n : nat) : forall (start : Z) (s : OS),
  - Z.of_nat (length (memory s)) <= start ->
  start + Z.of_nat n <= 0 ->
  for_each (seqZ start (Z.of_nat n)) (fun i => memset i v) s
  = for_each (seqZ (start + Z.of_nat (length (memory s))) (Z.of_nat n))
      (fun i => memset i v) s.
Proof.
  induction n as [| n IH]; intros start s Hlo Hhi; [reflexivity |].
  rewrite (seqZ_cons start), (seqZ_cons (start + Z.of_nat (length (memory s)))) by lia.
  rewrite !for_each_cons.
  rewrite memset_wrap by lia.
  unfold memset.
  destruct (setitem (memory s) (start + Z.of_nat (length (memory s))) v)
    as [m |] eqn:E; [| reflexivity].
  assert (Hlen : length m = length (memory s)).
  { unfold setitem in E. destruct (position _ _); [| discriminate].
    injection E as <-. apply length_insert. }
  replace (Z.pred (Z.of_nat (S n))) with (Z.of_nat n) by lia.
  rewrite IH by (cbn [memory with_memory]; rewrite ?Hlen; lia).
  cbn [memory with_memory]. rewrite Hlen.
  now replace (Z.succ start + Z.of_nat (length (memory s)))
    with (Z.succ (start + Z.of_nat (length (memory s)))) by lia.
Qed.

End Edges.

(** X5. On a machine with its arrays at their sizes, [initPageDir] of a
    frame number returns and leaves the invalid sentinel [0x7F] in each of
    the 32 entries of that frame, so that every entry is invalid; no other
    cell of memory and no other field of the machine changes. *)
Theorem initPageDir_resets_frame (p : Z) (s : OS) :
  shaped s -> 0 <= p < physPages ->
  exists s',
    initPageDir p s = Ok (tt, s') /\
    page (memory s') p = replicate 32 0x7F /\
    Forall (fun e => entryValid e = false) (page (memory s') p) /\
    (forall i, 0 <= i < physMem -> ~ (p * 32 <= i < p * 32 + 32) ->
       getitem (memory s') i = getitem (memory s) i) /\
    shaped s' /\
    usedPages s' = usedPages s /\ pdbr s' = pdbr s /\ levels s' = levels s.
Proof.
  intros [Hu Hm] Hp.
  destruct (initPageDir_spec p s Hp Hm) as (m' & Hrun & Hlen & Hget).
  assert (Hpage : page m' p = replicate 32 0x7F).
  { apply list_eq. intros j.
    destruct (Nat.lt_ge_cases j 32) as [Hlt | Hge].
    - rewrite page_lookup by lia. rewrite Hget.
      case_decide; [| lia]. symmetry. now apply lookup_replicate_2.
    - rewrite (lookup_ge_None_2 (page m' p)).
      + symmetry. apply lookup_ge_None_2. rewrite length_replicate. lia.
      + unfold page. rewrite length_take. unfold pageSize.
        change (Z.to_nat 32) with 32%nat. lia. }
  exists (with_memory s m'). cbn [memory usedPages pdbr levels with_memory].
  split; [assumption |]. split; [assumption |].
  split. { rewrite Hpage. now apply Forall_replicate. }
  split.
  { intros i Hi Hout. unfold getitem.
    assert (Hpm : physMem = 4096) by reflexivity.
    rewrite !position_in by (rewrite ?Hlen, ?Hm, physMem_nat; lia).
    rewrite Hget. case_decide; [lia | reflexivity]. }
  split; [now split |]. auto.
Qed.

Lemma initPageDir_resets_frame_witness :
  exists s',
    initPageDir 7 example_state = Ok (tt, s') /\
    page (memory s') 7 = replicate 32 0x7F /\
    Forall (fun e => entryValid e = false) (page (memory s') 7) /\
    (forall i, 0 <= i < physMem -> ~ (7 * 32 <= i < 7 * 32 + 32) ->
       getitem (memory s') i = getitem (memory example_state) i) /\
    shaped s' /\
    usedPages s' = usedPages example_state /\ pdbr s' = pdbr example_state /\
    levels s' = levels example_state.
Proof.
  apply (initPageDir_resets_frame 7 example_state).
  - split; vm_compute; reflexivity.
  - unfold physPages. lia.
Defined.

(** X6. [initPageDir] checks no bounds itself: a frame number of
    [physPages] or more, or below [-physPages], raises [IndexError] at the
    first write, and a negative frame number [p >= -physPages] is Python's
    index from the end: it resets frame [p + physPages]. *)
Theorem initPageDir_outside (p : Z) (s : OS) :
  shaped s ->
  (physPages <= p \/ p < - physPages -> initPageDir p s = Raise IndexError) /\
  (- physPages <= p < 0 -> initPageDir p s = initPageDir (p + physPages) s).
Proof.
  intros [Hu Hm].
  assert (Hlen : Z.of_nat (length (memory s)) = 4096).
  { rewrite Hm. reflexivity. }
  unfold initPageDir, physPages. rewrite !shiftl_pageBits. split.
  - intros Hout. change pageSize with (Z.of_nat 32).
    rewrite seqZ_cons by lia.
    apply for_each_raise_first. unfold memset, setitem.
    rewrite position_out; [reflexivity | lia].
  - intros Hneg. change pageSize with (Z.of_nat 32).
    rewrite fill_wrap by lia. rewrite Hlen.
    now replace ((p + 128) * 32) with (p * 32 + 4096) by lia.
Qed.

Lemma initPageDir_outside_witness :
  (physPages <= 128 \/ 128 < - physPages ->
   initPageDir 128 example_state = Raise IndexError) /\
  (- physPages <= 128 < 0 ->
   initPageDir 128 example_state = initPageDir (128 + physPages) example_state).
Proof.
  apply (initPageDir_outside 128 example_state).
  split; vm_compute; reflexivity.
Defined.

(** X7. With no free frame, [findFree] raises [IndexError]: the list of
    free frames is empty and [random.choice] has nothing to choose from. *)
Theorem findFree_out_of_frames (s : OS) :
  length (usedPages s) = Z.to_nat physPages ->
  freeCount (usedPages s) = 0%nat ->
  findFree s = Raise IndexError.
Proof.
  intros Hlen Hz. unfold findFree, bind, lift.
  rewrite freePages_spec.
  2:{ apply Forall_forall. intros i Hi. apply elem_of_seqZ in Hi.
      rewrite Hlen, Z2Nat.id by (unfold physPages; lia). lia. }
  destruct (filter _ (seqZ 0 physPages)) as [| i r] eqn:E; [reflexivity |].
  assert (Hin : i ∈ filter (fun i => usedPages s !! Z.to_nat i = Some 0)
                  (seqZ 0 physPages)) by (rewrite E; left).
  apply list_elem_of_filter in Hin as [Hi _].
  apply freeCount_lookup_pos in Hi. lia.
Qed.

Lemma findFree_out_of_frames_witness : findFree full_state = Raise IndexError.
Proof.
  apply (findFree_out_of_frames full_state); vm_compute; reflexivity.
Defined.

(** X8. A call of [findFree] that returns changes one entry of
    [usedPages] from 0 to 1 and consumes one draw: one more frame is marked,
    one fewer is free, and [memory], [pdbr] and [levels] are as before. *)
Theorem findFree_marks_one_frame (s s' : OS) (f : Z) :
  length (usedPages s) = Z.to_nat physPages ->
  findFree s = Ok (f, s') ->
  usedPages s' = <[Z.to_nat f := 1]> (usedPages s) /\
  usedCount (usedPages s') = S (usedCount (usedPages s)) /\
  S (freeCount (usedPages s')) = freeCount (usedPages s) /\
  memory s' = memory s /\ pdbr s' = pdbr s /\ levels s' = levels s /\
  drawn s' = S (drawn s).
Proof.
  intros Hlen Hrun.
  destruct (findFree_inv s s' f Hlen Hrun) as (Hf & Hz & Hu & Hm & Hp & Hl).
  split; [assumption |].
  rewrite Hu, usedCount_mark, freeCount_mark by assumption.
  split; [reflexivity |].
  split. { pose proof (freeCount_lookup_pos _ _ Hz). lia. }
  split; [assumption |]. split; [assumption |]. split; [assumption |].
  destruct (findFree_spec s Hlen) as (g & _ & _ & Hrun').
  { now apply (freeCount_lookup_pos _ (Z.to_nat f)). }
  rewrite Hrun' in Hrun. now injection Hrun as _ <-.
Qed.

(** X9. [allocVirtualPage] for a process without a root raises [KeyError],
    for every level count, before it reads or writes anything. *)
Theorem allocVirtualPage_unknown_pid (s : OS) (pid vp pp : Z) :
  pdbr s !! pid = None ->
  allocVirtualPage pid vp pp s = Raise KeyError.
Proof.
  intros Hnone. unfold allocVirtualPage, bind, self_levels. cbv beta iota.
  destruct (Z.leb_spec 3 (levels s)).
  - unfold pdbr_get. now rewrite Hnone.
  - unfold ret. cbv beta iota.
    destruct (Z.eqb_spec (levels s) 3); [lia |].
    unfold pdbr_get. now rewrite Hnone.
Qed.

Lemma allocVirtualPage_unknown_pid_witness :
  allocVirtualPage 2 5 9 example_state = Raise KeyError.
Proof. apply (allocVirtualPage_unknown_pid example_state 2 5 9). reflexivity. Defined.

(** * What the mutating methods keep *)

Section KeepsFrames.

Lemma frames_ret {A} (a : A) : keeps_frames (ret a).
Proof. intros s x s' H. injection H as <- <-. auto. Qed.

Lemma frames_raise {A} (e : exn) : keeps_frames (@raise A e).
Proof. intros s x s' H. discriminate. Qed.

Lemma frames_lift {A} (r : result A) : keeps_frames (lift r).
Proof.
  intros s x s' H. unfold lift in H.
  destruct r; [injection H as <- <-; auto | discriminate].
Qed.

Lemma frames_bind {A B} (m : M A) (f : A -> M B) :
  keeps_frames m -> (forall a, keeps_frames (f a)) -> keeps_frames (bind m f).
Proof.
  intros Hm Hf s b s' H.
  apply bind_inv in H as (a & s1 & H1 & H2).
  destruct (Hm _ _ _ H1) as (Hu1 & Hm1 & Hl1 & Hk1).
  destruct (Hf a _ _ _ H2) as (Hu2 & Hm2 & Hl2 & Hk2).
  repeat split; try congruence. intros k u Hne Hk. auto.
Qed.

Lemma setitem_length {A} (l l' : list A) (i : Z) (x : A) :
  setitem l i x = Ok l' -> length l' = length l.
Proof.
  unfold setitem. destruct (position l i); [| discriminate].
  intros H. injection H as <-. apply length_insert.
Qed.

Lemma frames_memget (i : Z) : keeps_frames (memget i).
Proof. intros s x s' H. unfold memget in H. now apply frames_lift in H. Qed.

Lemma frames_memset (i v : Z) : keeps_frames (memset i v).
Proof.
  intros s x s' H. unfold memset in H.
  destruct (setitem (memory s) i v) as [m |] eqn:E; [| discriminate].
  injection H as <- <-. cbn [usedPages memory levels with_memory].
  apply setitem_length in E. auto.
Qed.

Lemma frames_pdbr_get (pid : Z) : keeps_frames (pdbr_get pid).
Proof.
  intros s x s' H. unfold pdbr_get in H.
  destruct (pdbr s !! pid); [injection H as <- <-; auto | discriminate].
Qed.

Lemma frames_self_levels : keeps_frames self_levels.
Proof. intros s x s' H. unfold self_levels in H. injection H as <- <-. auto. Qed.

Lemma frames_local {A} (v : option A) : keeps_frames (local v).
Proof. destruct v; [apply frames_ret | apply frames_raise]. Qed.

Lemma frames_for_each {A} (xs : list A) (body : A -> M unit) :
  (forall x, keeps_frames (body x)) -> keeps_frames (for_each xs body).
Proof.
  intros Hb. induction xs as [| x xs IH]; simpl.
  - apply frames_ret.
  - apply frames_bind; [apply Hb | intros _; exact IH].
Qed.

Lemma frames_randbelow (n : Z) : keeps_frames (randbelow n).
Proof. intros s x s' H. unfold randbelow in H. injection H as <- <-. auto. Qed.

Lemma frames_randint (a b : Z) : keeps_frames (randint a b).
Proof.
  apply frames_bind; [apply frames_randbelow | intros k; apply frames_ret].
Qed.

Lemma frames_choice (l : list Z) : keeps_frames (choice l).
Proof.
  destruct l; [apply frames_raise |].
  apply frames_bind; [apply frames_randbelow | intros k; apply frames_lift].
Qed.

(** The frames that the list comprehension of [findFree] collects are
    positions of [usedPages] that hold 0. *)
Lemma freePages_sound (used idxs free : list Z) :
  Forall (fun i => 0 <= i) idxs ->
  freePages used idxs = Ok free ->
  Forall (fun f => 0 <= f /\ used !! Z.to_nat f = Some 0) free.
Proof.
  intros Hpos. revert free.
  induction Hpos as [| i idxs Hi _ IH]; intros free H; simpl in H.
  - injection H as <-. constructor.
  - destruct (getitem used i) as [u |] eqn:Eu; [| discriminate].
    destruct (freePages used idxs) as [r |]; [| discriminate].
    injection H as <-. specialize (IH r eq_refl).
    destruct (Z.eqb_spec u 0) as [-> | Hne]; [| assumption].
    constructor; [| assumption]. split; [assumption |].
    unfold getitem, position in Eu.
    destruct (Z.leb_spec 0 i); [| lia].
    destruct (Z.ltb_spec i (Z.of_nat (length used))); simpl in Eu.
    + destruct (used !! Z.to_nat i); [congruence | discriminate].
    + destruct (Z.leb_spec (- Z.of_nat (length used)) i), (Z.ltb_spec i 0);
        simpl in Eu; try discriminate; lia.
Qed.

Lemma frames_findFree : keeps_frames findFree.
Proof.
  intros s f s' H. unfold findFree in H.
  apply bind_inv in H as (free & s1 & H1 & H).
  unfold lift in H1.
  destruct (freePages (usedPages s) (seqZ 0 physPages)) as [fr |] eqn:Efree;
    [| discriminate].
  injection H1 as E1 E2. subst free s1.
  apply bind_inv in H as (g & s2 & H2 & H).
  assert (Hg : g ∈ fr /\ usedPages s2 = usedPages s /\
               memory s2 = memory s /\ levels s2 = levels s).
  { unfold choice in H2. destruct fr as [| x r]; [discriminate |].
    apply bind_inv in H2 as (k & s3 & Hk & Hget).
    unfold randbelow in Hk. injection Hk as <- <-.
    unfold lift in Hget.
    destruct (getitem (x :: r) _) as [y |] eqn:Ey; [| discriminate].
    injection Hget as <- <-. split; [| auto].
    unfold getitem in Ey. destruct (position _ _); [| discriminate].
    destruct ((x :: r) !! n) eqn:En; [| discriminate].
    injection Ey as <-. apply list_elem_of_lookup. eauto. }
  destruct Hg as (Hin & Eu & Em & El).
  apply freePages_sound in Efree.
  2:{ apply Forall_forall. intros i Hi. apply elem_of_seqZ in Hi. lia. }
  rewrite Forall_forall in Efree. destruct (Efree g Hin) as [Hg0 Hgz].
  destruct (setitem (usedPages s2) g 1) as [u |] eqn:Eset; [| discriminate].
  injection H as <- <-. cbn [usedPages memory levels with_usedPages].
  pose proof (setitem_length _ _ _ _ Eset) as Hlen.
  split; [congruence |]. split; [now rewrite Em |]. split; [assumption |].
  intros k v Hv Hk.
  unfold setitem in Eset. rewrite Eu in Eset.
  rewrite position_in in Eset.
  2:{ split; [assumption |]. apply lookup_lt_Some in Hgz. lia. }
  injection Eset as <-.
  destruct (decide (Z.to_nat g = k)) as [<- | Hne]; [congruence |].
  now rewrite list_lookup_insert_ne.
Qed.

Lemma frames_initPageDir (p : Z) : keeps_frames (initPageDir p).
Proof. apply frames_for_each. intros i. apply frames_memset. Qed.

Lemma frames_allocVirtualPage (pid vp pp : Z) :
  keeps_frames (allocVirtualPage pid vp pp).
Proof.
  unfold allocVirtualPage.
  apply frames_bind; [apply frames_self_levels | intros lv].
  apply frames_bind.
  { destruct (3 <=? lv); [| apply frames_ret].
    apply frames_bind; [apply frames_pdbr_get | intros root].
    apply frames_bind; [apply frames_memget | intros e].
    destruct (Z.land e 128 =? 0); [| apply frames_ret].
    apply frames_bind; [apply frames_findFree | intros f].
    apply frames_bind; [apply frames_memset | intros _].
    apply frames_bind; [apply frames_initPageDir | intros _; apply frames_ret]. }
  intros l1Page. apply frames_bind.
  { destruct (lv =? 3); [apply frames_local | apply frames_pdbr_get]. }
  intros base. apply frames_bind; [apply frames_memget | intros e1].
  apply frames_bind.
  { destruct (Z.land e1 128 =? 0); [| apply frames_ret].
    apply frames_bind; [apply frames_findFree | intros f].
    apply frames_bind; [apply frames_memset | intros _].
    apply frames_bind; [apply frames_initPageDir | intros _; apply frames_ret]. }
  intros l2Page. apply frames_bind; [apply frames_memget | intros e2].
  destruct (Z.land e2 128 =? 0); [apply frames_memset | apply frames_ret].
Qed.

Lemma frames_redraw (fuel : nat) (allocated : gset Z) :
  forall vp, keeps_frames (redraw fuel allocated vp).
Proof.
  induction fuel as [| fuel IH]; intros vp; simpl;
    destruct (decide (vp ∈ allocated)).
  - apply frames_raise.
  - apply frames_ret.
  - apply frames_bind; [apply frames_randint | intros v; apply IH].
  - apply frames_ret.
Qed.

Lemma frames_allocLoop (fuel : nat) (pid : Z) (n : nat) :
  forall allocated, keeps_frames (allocLoop fuel pid n allocated).
Proof.
  induction n as [| n IH]; intros allocated.
  - apply frames_ret.
  - rewrite allocLoop_S.
    apply frames_bind; [apply frames_randint | intros vp0].
    apply frames_bind; [apply frames_redraw | intros vp].
    apply frames_bind; [apply frames_findFree | intros pp].
    apply frames_bind; [apply frames_allocVirtualPage | intros _; apply IH].
Qed.

Lemma frames_procAlloc (fuel : nat) (pid numPages : Z) :
  keeps_frames (procAlloc fuel pid numPages).
Proof.
  unfold procAlloc.
  apply frames_bind; [apply frames_findFree | intros pageDir].
  apply frames_bind.
  { intros s x s' H. injection H as <- <-. auto. }
  intros _. apply frames_bind; [apply frames_initPageDir | intros _].
  apply frames_bind; [apply frames_allocLoop | intros a; apply frames_ret].
Qed.

(** The virtual pages that the loop collects. *)
Lemma allocLoop_pages (fuel : nat) (pid : Z) :
  forall (n : nat) (allocated : gset Z) (s s' : OS) res,
    allocLoop fuel pid n allocated s = Ok (res, s') ->
    size res = (size allocated + n)%nat /\
    allocated ⊆ res /\
    (forall vp, vp ∈ res -> vp ∈ allocated \/ 0 <= vp < vaPages).
Proof.
  induction n as [| n IH]; intros allocated s s' res Hrun.
  - simpl in Hrun. unfold ret in Hrun. injection Hrun as <- <-.
    split; [lia |]. split; [reflexivity | auto].
  - rewrite allocLoop_S in Hrun.
    apply bind_inv in Hrun as (vp0 & s1 & Hr1 & Hrun).
    apply randint_inv in Hr1 as (Hvp0 & _); [| unfold vaPages; lia].
    apply bind_inv in Hrun as (vp & s2 & Hr2 & Hrun).
    apply redraw_inv in Hr2 as ((Hvp & Hnew) & _);
      [| unfold vaPages in *; lia].
    apply bind_inv in Hrun as (pp & s3 & _ & Hrun).
    apply bind_inv in Hrun as ([] & s4 & _ & Hrun).
    apply IH in Hrun as (Hsize & Hsub & Hrange).
    rewrite size_union in Hsize by (now apply disjoint_singleton_r).
    rewrite size_singleton in Hsize.
    split; [lia |]. split.
    + intros x Hx. apply Hsub. apply elem_of_union. now left.
    + intros x Hx. destruct (Hrange x Hx) as [Hin | Hr]; [| now right].
      apply elem_of_union in Hin as [Hin | Hin]; [now left |].
      apply elem_of_singleton in Hin as ->. now right.
Qed.

End KeepsFrames.

(** X10. [allocVirtualPage] and [procAlloc] never resize [usedPages] or
    [memory], never change the level count and never clear a mark: a frame
    that is used before a call that returns is used after it. *)
Theorem frames_are_never_freed (fuel : nat) (pid vp pp numPages : Z) :
  keeps_frames (allocVirtualPage pid vp pp) /\
  keeps_frames (procAlloc fuel pid numPages) /\
  keeps_frames findFree.
Proof.
  split; [apply frames_allocVirtualPage |].
  split; [apply frames_procAlloc | apply frames_findFree].
Qed.

(** X11. [allocVirtualPage] never writes [pdbr]: the roots of all processes
    are the same after a call that returns. *)
Theorem allocVirtualPage_keeps_roots (pid vp pp : Z) (s s' : OS) :
  allocVirtualPage pid vp pp s = Ok (tt, s') -> pdbr s' = pdbr s.
Proof. intros H. now apply keeps_allocVirtualPage in H. Qed.

(** X12. A call of [procAlloc] that returns gives back exactly [numPages]
    virtual pages (none when [numPages] is negative), pairwise distinct and
    each in [[0, vaPages)], whatever the machine was. *)
Theorem procAlloc_returns_distinct_pages (fuel : nat) (pid numPages : Z)
    (s s' : OS) (vps : list Z) :
  procAlloc fuel pid numPages s = Ok (vps, s') ->
  length vps = Z.to_nat numPages /\
  NoDup vps /\
  Forall (fun vp => 0 <= vp < vaPages) vps.
Proof.
  intros Hrun. unfold procAlloc in Hrun.
  apply bind_inv in Hrun as (r & s1 & _ & Hrun).
  apply bind_inv in Hrun as ([] & s2 & _ & Hrun).
  apply bind_inv in Hrun as ([] & s3 & _ & Hrun).
  apply bind_inv in Hrun as (res & s4 & Hloop & Hret).
  unfold ret in Hret. injection Hret as <- <-.
  apply allocLoop_pages in Hloop as (Hsize & _ & Hrange).
  split. { change (length (elements res)) with (size res). rewrite Hsize.
           rewrite size_empty. lia. }
  split; [apply NoDup_elements |].
  apply Forall_forall. intros vp Hvp. apply elem_of_elements in Hvp.
  destruct (Hrange vp Hvp) as [Hin | Hr]; [| assumption].
  now apply not_elem_of_empty in Hin.
Qed.

Lemma allocVirtualPage_keeps_roots_witness : pdbr example_state = pdbr root_state.
Proof.
  apply (allocVirtualPage_keeps_roots 1 5 9 root_state example_state).
  vm_compute. reflexivity.
Defined.

Lemma procAlloc_returns_distinct_pages_witness :
  exists vps s',
    procAlloc 8 1 3 (OS_init 3 draws_count) = Ok (vps, s') /\
    length vps = Z.to_nat 3 /\ NoDup vps /\
    Forall (fun vp => 0 <= vp < vaPages) vps.
Proof.
  destruct (procAlloc 8 1 3 (OS_init 3 draws_count)) as [[vps s'] | e] eqn:E.
  - exists vps, s'. split; [reflexivity |].
    exact (procAlloc_returns_distinct_pages 8 1 3 _ _ _ E).
  - vm_compute in E. discriminate E.
Defined.

Lemma findFree_marks_one_frame_witness :
  usedCount (<[0%nat := 1]> (usedPages (OS_init 3 draws_zero)))
    = S (usedCount (usedPages (OS_init 3 draws_zero))) /\
  S (freeCount (<[0%nat := 1]> (usedPages (OS_init 3 draws_zero))))
    = freeCount (usedPages (OS_init 3 draws_zero)).
Proof.
  destruct (findFree_marks_one_frame (OS_init 3 draws_zero)
              (with_usedPages (with_drawn (OS_init 3 draws_zero) 1)
                 (<[0%nat := 1]> (usedPages (OS_init 3 draws_zero)))) 0)
    as (_ & Hu & Hf & _).
  - reflexivity.
  - vm_compute. reflexivity.
  - split; [exact Hu | exact Hf].
Defined.

(** * The capacity of a machine and a process without mappings *)

Section Capacity.

Lemma usedCount_le (used : list Z) : (usedCount used <= length used)%nat.
Proof. unfold usedCount. apply length_filter. Qed.

(** After a run of [procAlloc] that returns, the machine has its arrays at
    their sizes and the process has a root that is a frame number. *)
Lemma procAlloc_leaves_root (fuel : nat) (pid numPages : Z) (s s' : OS) vps :
  shaped s ->
  procAlloc fuel pid numPages s = Ok (vps, s') ->
  shaped s' /\ levels s' = levels s /\
  exists r, pdbr s' !! pid = Some r /\ 0 <= r < physPages.
Proof.
  intros [Hu Hm] Hrun.
  destruct (frames_procAlloc fuel pid numPages _ _ _ Hrun) as (Eu & Em & El & _).
  split; [split; congruence |]. split; [assumption |].
  apply procAlloc_inv in Hrun
    as (r & s3 & res & Hr & _ & _ & Ep & _ & _ & _ & Hloop & _);
    [| now split].
  apply keeps_allocLoop in Hloop.
  exists r. split; [rewrite Hloop, Ep; apply lookup_insert_eq | assumption].
Qed.

End Capacity.

(** X13. A fresh 3-level machine has room for 125 pages: a run of
    [procAlloc] that returns was asked for at most [physPages - 3] pages,
    since the root, one level-1 directory, one level-2 table and one frame
    per page must fit in [physPages] frames. *)
Theorem procAlloc_capacity (rnd : nat -> Z) (fuel : nat) (pid numPages : Z)
    (vps : list Z) (s : OS) :
  procAlloc fuel pid numPages (OS_init 3 rnd) = Ok (vps, s) ->
  numPages <= physPages - 3.
Proof.
  intros Hrun. unfold physPages.
  destruct (Z.le_gt_cases numPages 0) as [Hle | Hgt]; [lia |].
  replace numPages with (Z.of_nat (S (Z.to_nat (numPages - 1)))) in Hrun by lia.
  apply procAlloc_tree in Hrun as (r & a & b & Hinv & _).
  destruct Hinv as (_ & [Hu _] & _ & _ & Hk).
  pose proof (usedCount_le (usedPages s)) as Hle.
  rewrite Hk, Hu in Hle. change (Z.to_nat physPages) with 128%nat in Hle. lia.
Qed.

Lemma procAlloc_capacity_witness : 3 <= physPages - 3.
Proof.
  destruct (procAlloc 8 1 3 (OS_init 3 draws_count)) as [[vps s'] | e] eqn:E.
  - exact (procAlloc_capacity draws_count 8 1 3 vps s' E).
  - vm_compute in E. discriminate E.
Defined.

(** X14. A process that was given a root and no page has no mapping: on a
    3-level machine every walk reads one entry of the new root and returns
    the level-0 fault [-3]. *)
Theorem new_process_faults_at_level0 (s : OS) (fuel : nat) (pid : Z) :
  levels s = 3 -> shaped s -> (0 < freeCount (usedPages s))%nat ->
  exists r s',
    procAlloc fuel pid 0 s = Ok ([], s') /\
    pdbr s' !! pid = Some r /\
    forall va, translate s' pid va
               = ([Z.shiftl r pageBits + l0Index va], Ok (-3)).
Proof.
  intros Hl Hs Hfree.
  destruct (procAlloc_root s fuel pid Hs Hfree)
    as (r & s' & Hrun & Hr & _ & Hu' & Hp' & Hl' & Hlen & Hget).
  assert (Hroot : pdbr s' !! pid = Some r).
  { rewrite Hp'. apply lookup_insert_eq. }
  exists r, s'. split; [assumption |]. split; [assumption |].
  intros va. pose proof (l0Index_range va) as Hi.
  assert (Hpp : physPages = 128) by reflexivity.
  assert (Hpm : physMem = 4096) by reflexivity.
  apply (walk3_fault0 s' pid va r) with (e0 := 0x7F);
    [congruence | assumption | | reflexivity].
  rewrite shiftl_pageBits. apply getitem_lookup.
  - rewrite Hlen, physMem_nat. lia.
  - rewrite Hget. case_decide; [reflexivity | lia].
Qed.

Lemma new_process_faults_at_level0_witness :
  exists r s',
    procAlloc 0 2 0 example_state = Ok ([], s') /\
    pdbr s' !! 2 = Some r /\
    forall va, translate s' 2 va
               = ([Z.shiftl r pageBits + l0Index va], Ok (-3)).
Proof.
  apply (new_process_faults_at_level0 example_state 0 2).
  - reflexivity.
  - split; vm_compute; reflexivity.
  - vm_compute. lia.
Defined.

(** * The memory dump *)

Section Dump.

Lemma concat_pages (m : list Z) (n : nat) :
  concat ((fun i => page m (Z.of_nat i)) <$> seq 0 n) = take (32 * n) m.
Proof.
  induction n as [| n IH]; [reflexivity |].
  rewrite seq_S, fmap_app, concat_app, IH. simpl.
  rewrite app_nil_r. unfold page, pageSize.
  replace (Z.to_nat (Z.of_nat n * 32)) with (32 * n)%nat by lia.
  change (Z.to_nat 32) with 32%nat.
  rewrite take_take_drop. f_equal. lia.
Qed.

Lemma seqZ_of_nat (n : nat) : seqZ 0 (Z.of_nat n) = Z.of_nat <$> seq 0 n.
Proof.
  unfold seqZ. rewrite Nat2Z.id.
  apply list_fmap_ext. intros i x _. lia.
Qed.

End Dump.

(** X15. [memoryDump] lists the 128 frames in order, each with its 32 bytes,
    and shows every byte of memory exactly once: the pages of the dump, put
    end to end, are the memory. *)
Theorem memoryDump_is_memory (s : OS) :
  length (memory s) = Z.to_nat physMem ->
  (memoryDump s).*1 = seqZ 0 physPages /\
  Forall (fun l => length l.2 = Z.to_nat pageSize) (memoryDump s) /\
  concat ((memoryDump s).*2) = memory s.
Proof.
  intros Hlen. unfold memoryDump.
  split; [| split].
  - rewrite <- list_fmap_compose.
    transitivity (id <$> seqZ 0 physPages); [| apply list_fmap_id].
    apply list_fmap_ext. reflexivity.
  - apply Forall_fmap, Forall_forall. intros i Hi. apply elem_of_seqZ in Hi.
    simpl. unfold page. rewrite length_take, length_drop, Hlen.
    unfold physMem, physPages, pageSize in *. lia.
  - rewrite <- list_fmap_compose.
    change physPages with (Z.of_nat 128). rewrite seqZ_of_nat.
    rewrite <- list_fmap_compose.
    transitivity (concat ((fun i => page (memory s) (Z.of_nat i)) <$> seq 0 128)).
    { reflexivity. }
    rewrite concat_pages.
    apply take_ge. rewrite Hlen. reflexivity.
Qed.

Lemma memoryDump_is_memory_witness :
  (memoryDump example_state).*1 = seqZ 0 physPages /\
  Forall (fun l => length l.2 = Z.to_nat pageSize) (memoryDump example_state) /\
  concat ((memoryDump example_state).*2) = memory example_state.
Proof. apply (memoryDump_is_memory example_state). vm_compute. reflexivity. Defined.

(** * The translations after a full run *)

Section Leaves.

Lemma entryValid_lor (x : Z) : entryValid (Z.lor 0x80 x) = true.
Proof. unfold entryValid. now rewrite Z.lor_spec. Qed.

Lemma alloc_on_tree_full (pid r a b : Z) (k : nat) (s : OS) (vp pp : Z) :
  treeInv pid r a b k s -> 0 <= vp < vaPages ->
  exists s',
    allocVirtualPage pid vp pp s = Ok (tt, s') /\
    treeInv pid r a b k s' /\
    (exists e, memory s' !! Z.to_nat (b * 32 + l2Index vp) = Some e /\
               entryValid e = true) /\
    (forall j, 0 <= j <= 1 -> j <> l2Index vp ->
       memory s' !! Z.to_nat (b * 32 + j) = memory s !! Z.to_nat (b * 32 + j)) /\
    usedPages s' = usedPages s /\
    (forall e, memory s !! Z.to_nat (b * 32 + l2Index vp) = Some e ->
               entryValid e = true -> s' = s).
Proof.
  intros Hinv Hvp. pose proof Hinv as (Hl & Hs & Hp & Ht & Hk).
  destruct Ht as ((Hr & Ha & Hb) & (Har & Hbr & Hab) & Hc0 & Hc1 & Hrest & Hleaf).
  destruct (page_number_indices vp Hvp) as (J0 & J1 & J2).
  assert (Hpp : physPages = 128) by reflexivity.
  assert (Hlen : length (memory s) = 4096%nat) by apply Hs.
  destruct (lookup_lt_is_Some_2 (memory s) (Z.to_nat (b * 32 + l2Index vp)))
    as [e2 He2]; [lia |].
  assert (H0 : memory s !! Z.to_nat (r * 32 + l0Index vp) = Some (Z.lor 0x80 a)).
  { now rewrite J0, Z.add_0_r. }
  assert (H1 : memory s !! Z.to_nat (framePtr (Z.lor 0x80 a) * 32 + l1Index vp)
               = Some (Z.lor 0x80 b)).
  { now rewrite framePtr_mark, J1, Z.add_0_r. }
  assert (H2 : memory s !! Z.to_nat (framePtr (Z.lor 0x80 b) * 32 + l2Index vp)
               = Some e2).
  { now rewrite framePtr_mark. }
  destruct (entryValid e2) eqn:V2.
  - exists s. split.
    + apply (alloc_valid_path s pid r vp pp Hl Hs Hp Hr _ _ _ H0
               (entryValid_mark a Ha) H1 (entryValid_mark b Hb) H2 V2).
    + split; [exact Hinv |]. split; [now exists e2 |]. auto.
  - destruct (alloc_on_tree pid r a b k s vp pp Hinv Hvp) as (s' & Hrun & Hinv').
    exists s'. split; [assumption |]. split; [assumption |].
    rewrite (alloc_leaf s pid r vp pp Hl Hs Hp Hr _ _ _ H0
               (entryValid_mark a Ha) H1 (entryValid_mark b Hb) H2 V2) in Hrun.
    injection Hrun as <-. rewrite framePtr_mark by assumption.
    cbn [memory usedPages with_memory]. split.
    { exists (Z.lor 0x80 pp). split; [| apply entryValid_lor].
      apply list_lookup_insert_eq. lia. }
    split.
    { intros j Hj Hne. apply list_lookup_insert_ne. lia. }
    split; [reflexivity |].
    intros e He Ve. congruence.
Qed.

Lemma leafInv_step (allocated : gset Z) (m m' : list Z) (b vp : Z) :
  0 <= l2Index vp <= 1 ->
  leafInv allocated m b ->
  (exists e, m' !! Z.to_nat (b * 32 + l2Index vp) = Some e /\
             entryValid e = true) ->
  (forall j, 0 <= j <= 1 -> j <> l2Index vp ->
     m' !! Z.to_nat (b * 32 + j) = m !! Z.to_nat (b * 32 + j)) ->
  leafInv (allocated ∪ {[vp]}) m' b.
Proof.
  intros Hvp Hinv (e & He & Ve) Hother j e' Hj Hj'.
  destruct (Z.eq_dec j (l2Index vp)) as [-> | Hne].
  - assert (e' = e) as -> by congruence. split; [| auto].
    intros _. exists vp. split; [| reflexivity].
    apply elem_of_union. right. now apply elem_of_singleton.
  - rewrite Hother in Hj' by assumption.
    rewrite (Hinv j e' Hj Hj'). split.
    + intros (x & Hx & Hxj). exists x. split; [| assumption].
      apply elem_of_union. now left.
    + intros (x & Hx & Hxj). exists x. split; [| assumption].
      apply elem_of_union in Hx as [Hx | Hx]; [assumption |].
      apply elem_of_singleton in Hx as ->. congruence.
Qed.

Lemma allocLoop_leaves (fuel : nat) (pid r a b : Z) :
  forall (n : nat) (allocated : gset Z) (k : nat) (s : OS) res s',
    treeInv pid r a b k s ->
    leafInv allocated (memory s) b ->
    allocLoop fuel pid n allocated s = Ok (res, s') ->
    leafInv res (memory s') b.
Proof.
  induction n as [| n IH]; intros allocated k s res s' Hinv Hleaf Hrun.
  - simpl in Hrun. unfold ret in Hrun. now injection Hrun as <- <-.
  - rewrite allocLoop_S in Hrun.
    apply bind_inv in Hrun as (vp0 & s1 & Hr1 & Hrun).
    apply randint_inv in Hr1 as (Hvp0 & El1 & Eu1 & Em1 & Ep1);
      [| unfold vaPages; lia].
    apply bind_inv in Hrun as (vp & s2 & Hr2 & Hrun).
    apply redraw_inv in Hr2 as ((Hvp & Hnew) & El2 & Eu2 & Em2 & Ep2);
      [| unfold vaPages in *; lia].
    apply bind_inv in Hrun as (pp & s3 & Hr3 & Hrun).
    assert (Hinv2 : treeInv pid r a b k s2).
    { apply (treeInv_same _ _ _ _ _ s); [assumption | congruence ..]. }
    apply findFree_inv in Hr3 as (Hpp & Hz & Eu3 & Em3 & Ep3 & El3);
      [| apply Hinv2].
    assert (Hinv3 : treeInv pid r a b (S k) s3).
    { now apply (treeInv_mark _ _ _ _ _ s2 s3 pp). }
    apply bind_inv in Hrun as ([] & s4 & Hr4 & Hrun).
    destruct (alloc_on_tree_full pid r a b (S k) s3 vp pp Hinv3 Hvp)
      as (s4' & Hr4' & Hinv4 & Hslot & Hother & _).
    rewrite Hr4' in Hr4. injection Hr4 as <-.
    eapply IH; [exact Hinv4 | | exact Hrun].
    apply (leafInv_step allocated (memory s3)); try assumption.
    + apply page_number_indices. assumption.
    + now rewrite Em3, Em2, Em1.
Qed.

(** The first mapping, with the leaf slots it leaves. *)
Lemma alloc_first_leaves (pid r : Z) (s s' : OS) (vp pp a b : Z) (k : nat) :
  levels s = 3 -> shaped s -> pdbr s !! pid = Some r ->
  0 <= r < physPages ->
  usedPages s !! Z.to_nat r = Some 1 ->
  (forall j, 0 <= j < 32 -> memory s !! Z.to_nat (r * 32 + j) = Some 0x7F) ->
  (2 <= freeCount (usedPages s))%nat ->
  0 <= vp < vaPages ->
  allocVirtualPage pid vp pp s = Ok (tt, s') ->
  treeInv pid r a b k s' ->
  leafInv {[vp]} (memory s') b.
Proof.
  intros Hl Hs Hp Hr Hur Hroot Hfree Hvp Hrun Hinv.
  destruct (page_number_indices vp Hvp) as (J0 & J1 & J2).
  assert (Hpp : physPages = 128) by reflexivity.
  destruct (alloc_fresh_path s pid r vp pp Hl Hs Hp Hr 0x7F 1)
    as (a' & b' & s'' & Hrun' & [Ha Hb] & (Har & Hbr & Hab) & _ & _ & _
          & _ & Hm & Hget); try assumption; try lia.
  { rewrite J0. apply Hroot. lia. }
  { reflexivity. }
  rewrite Hrun' in Hrun. injection Hrun as ->.
  rewrite J0, J1 in Hget.
  (* the directories of the invariant are those of the call *)
  destruct Hinv as (_ & _ & Hp' & ((_ & Ha2 & Hb2) & _ & Hc0 & Hc1 & _) & _).
  assert (Ea : a = a').
  { rewrite Hget in Hc0. repeat case_decide; try lia.
    injection Hc0 as Hc0. rewrite <- (framePtr_mark a), <- (framePtr_mark a') by assumption.
    now rewrite Hc0. }
  subst a'.
  assert (Eb : b = b').
  { rewrite Hget in Hc1. repeat case_decide; try lia.
    injection Hc1 as Hc1. rewrite <- (framePtr_mark b), <- (framePtr_mark b') by assumption.
    now rewrite Hc1. }
  subst b'.
  intros j e Hj He. rewrite Hget in He.
  destruct (decide (Z.of_nat (Z.to_nat (b * 32 + j)) = b * 32 + l2Index vp))
    as [Heq | Hne].
  - injection He as <-. split; [| intros; apply entryValid_lor].
    intros _. exists vp. split; [now apply elem_of_singleton | lia].
  - case_decide; [| lia]. injection He as <-. split; [discriminate |].
    intros (x & Hx & Hxj). apply elem_of_singleton in Hx as ->. lia.
Qed.

Lemma allocLoop_first_leaves (fuel : nat) (pid r a b : Z) (k n : nat)
    (s3 s : OS) res :
  levels s3 = 3 -> shaped s3 -> pdbr s3 !! pid = Some r ->
  0 <= r < physPages ->
  usedPages s3 !! Z.to_nat r = Some 1 ->
  (forall j, 0 <= j < 32 -> memory s3 !! Z.to_nat (r * 32 + j) = Some 0x7F) ->
  (3 <= freeCount (usedPages s3))%nat ->
  allocLoop fuel pid (S n) ∅ s3 = Ok (res, s) ->
  treeInv pid r a b k s ->
  leafInv res (memory s) b.
Proof.
  intros Hl Hs Hp Hr Hur Hroot Hfree Hloop Hfinal.
  rewrite allocLoop_S in Hloop.
  apply bind_inv in Hloop as (vp0 & t1 & Ht1 & Hloop).
  apply randint_inv in Ht1 as (Hvp0 & El4 & Eu4 & Em4 & Ep4);
    [| unfold vaPages; lia].
  apply bind_inv in Hloop as (vp & t2 & Ht2 & Hloop).
  apply redraw_inv in Ht2 as ((Hvp & Hnew) & El5 & Eu5 & Em5 & Ep5);
    [| unfold vaPages in *; lia].
  apply bind_inv in Hloop as (pp & t3 & Ht3 & Hloop).
  destruct Hs as [Hsu Hsm].
  apply findFree_inv in Ht3 as (Hppr & Hppz & Eu6 & Em6 & Ep6 & El6);
    [| congruence].
  apply bind_inv in Hloop as ([] & t4 & Ht4 & Hloop).
  rewrite Eu5, Eu4 in Eu6, Hppz.
  assert (Hne : Z.to_nat pp <> Z.to_nat r) by (intros E; congruence).
  assert (Hl3 : levels t3 = 3) by congruence.
  assert (Hs3 : shaped t3).
  { split; [rewrite Eu6, length_insert; assumption | congruence]. }
  assert (Hp3 : pdbr t3 !! pid = Some r) by congruence.
  assert (Hu3 : usedPages t3 !! Z.to_nat r = Some 1).
  { rewrite Eu6, list_lookup_insert_ne by auto. assumption. }
  assert (Hroot3 : forall j, 0 <= j < 32 ->
                     memory t3 !! Z.to_nat (r * 32 + j) = Some 0x7F).
  { intros j Hj. rewrite Em6, Em5, Em4. now apply Hroot. }
  assert (Hfree3 : (2 <= freeCount (usedPages t3))%nat).
  { rewrite Eu6, freeCount_mark by assumption. lia. }
  destruct (alloc_first pid r (usedCount (usedPages t3)) t3 vp pp)
    as (a' & b' & t4' & Hrun4 & Hinv4); try assumption; try reflexivity.
  rewrite Hrun4 in Ht4. injection Ht4 as <-.
  pose proof (allocLoop_tree fuel pid r a' b' n _ _ _ _ _ Hinv4 Hloop)
    as [Hinv' _].
  (* the directories at the end are those of the first mapping *)
  destruct Hfinal as (_ & _ & _ & ((_ & Ha2 & Hb2) & _ & Hc0 & Hc1 & _) & _).
  pose proof Hinv' as (_ & _ & _ & ((_ & Ha3 & Hb3) & _ & Hd0 & Hd1 & _) & _).
  assert (Ea : a' = a).
  { rewrite Hc0 in Hd0. injection Hd0 as Hd0.
    rewrite <- (framePtr_mark a), <- (framePtr_mark a') by assumption.
    now rewrite Hd0. }
  subst a'.
  assert (Eb : b' = b).
  { rewrite Hc1 in Hd1. injection Hd1 as Hd1.
    rewrite <- (framePtr_mark b), <- (framePtr_mark b') by assumption.
    now rewrite Hd1. }
  subst b'.
  eapply allocLoop_leaves; [exact Hinv4 | | exact Hloop].
  rewrite union_empty_l_L.
  now apply (alloc_first_leaves pid r t3 t4' vp pp a b _ Hl3 Hs3 Hp3 Hr Hu3
               Hroot3 Hfree3 Hvp Hrun4 Hinv4).
Qed.

(** The tree and the leaves after a full run on a fresh machine. *)
Lemma procAlloc_leaves (rnd : nat -> Z) (fuel : nat) (pid : Z) (n : nat) vps s :
  procAlloc fuel pid (Z.of_nat (S n)) (OS_init 3 rnd) = Ok (vps, s) ->
  exists r a b,
    treeInv pid r a b (S n + 3) s /\
    forall j e, 0 <= j <= 1 -> memory s !! Z.to_nat (b * 32 + j) = Some e ->
      (entryValid e = true <-> exists vp, vp ∈ vps /\ l2Index vp = j).
Proof.
  intros Hrun.
  destruct (procAlloc_tree rnd fuel pid n vps s Hrun) as (r & a & b & Hinv & _).
  apply procAlloc_inv in Hrun
    as (r' & s3 & res & Hr & Hrz & Eu & Ep & El & Hlen & Hget & Hloop & ->);
    [| apply OS_init_shaped].
  rewrite Nat2Z.id in Hloop.
  change (usedPages (OS_init 3 rnd)) with (replicate 128 0) in Hrz, Eu.
  assert (Hp3 : pdbr s3 !! pid = Some r').
  { rewrite Ep. apply lookup_insert_eq. }
  assert (Er : r' = r).
  { destruct Hinv as (_ & _ & Hp & _).
    apply keeps_allocLoop in Hloop. congruence. }
  subst r'.
  exists r, a, b. split; [assumption |].
  assert (Hleaf : leafInv res (memory s) b).
  { apply (allocLoop_first_leaves fuel pid r a b (S n + 3) n s3 s res); try assumption.
    - split; [| assumption]. rewrite Eu, length_insert. reflexivity.
    - rewrite Eu. apply list_lookup_insert_eq. eapply lookup_lt_Some; eauto.
    - intros j Hj. rewrite Hget. case_decide; [reflexivity | lia].
    - rewrite Eu, freeCount_mark, fresh_freeCount by assumption. simpl. lia. }
  intros j e Hj He. rewrite (Hleaf j e Hj He).
  split; intros (vp & Hvp & Hvj); exists vp; (split; [| assumption]);
    now apply elem_of_elements.
Qed.

End Leaves.

(** X16. The translations that a full run leaves behind.  After
    [procAlloc] has returned the pages [vps] (at least one) on a fresh
    3-level machine, an address with bit 15 set faults at level 0, an address
    with bit 15 clear and bit 10 set faults at level 1, and any other address
    is translated into some frame, keeping its offset, exactly when its bit 5
    is the bit 5 of one of the page numbers in [vps]; otherwise it faults at
    level 2. *)
Theorem translations_after_run (rnd : nat -> Z) (fuel : nat) (pid : Z)
    (n : nat) (vps : list Z) (s : OS) (va : Z) :
  procAlloc fuel pid (Z.of_nat (S n)) (OS_init 3 rnd) = Ok (vps, s) ->
  (Z.testbit va 15 = true -> outcome s pid va = Ok (-3)) /\
  (Z.testbit va 15 = false -> Z.testbit va 10 = true ->
   outcome s pid va = Ok (-2)) /\
  (Z.testbit va 15 = false -> Z.testbit va 10 = false ->
   ((exists vp, vp ∈ vps /\ Z.testbit vp 5 = Z.testbit va 5) ->
    exists f, 0 <= f < physPages /\
              outcome s pid va = Ok (f * pageSize + va mod pageSize)) /\
   (~ (exists vp, vp ∈ vps /\ Z.testbit vp 5 = Z.testbit va 5) ->
    outcome s pid va = Ok (-1))).
Proof.
  intros Hrun.
  destruct (procAlloc_leaves rnd fuel pid n vps s Hrun)
    as (r & a & b & Hinv & Hleaf).
  destruct Hinv as (Hl & Hs & Hp & Ht & _).
  destruct Ht as ((Hr & Ha & Hb) & _ & Hc0 & Hc1 & Hrest & _).
  assert (Hpp : physPages = 128) by reflexivity.
  assert (Hpm : physMem = 4096) by reflexivity.
  assert (Hcell : forall i x, 0 <= i < physMem ->
            memory s !! Z.to_nat i = Some x -> getitem (memory s) i = Ok x).
  { intros i x Hi Hx. now apply cell_getitem. }
  destruct (Hrest 1 ltac:(lia)) as [Hr1 Ha1].
  unfold outcome. split; [| split].
  - intros B15.
    rewrite (walk3_fault0 s pid va r Hl Hp 0x7F); [reflexivity | | reflexivity].
    rewrite shiftl_pageBits, l0Index_bit, B15. apply Hcell; [simpl; lia |].
    exact Hr1.
  - intros B15 B10.
    assert (G0 : getitem (memory s) (Z.shiftl r pageBits + l0Index va)
                 = Ok (Z.lor 0x80 a)).
    { rewrite shiftl_pageBits, l0Index_bit, B15. simpl. rewrite Z.add_0_r.
      apply Hcell; [lia | assumption]. }
    rewrite (walk3_fault1 s pid va r Hl Hp _ 0x7F G0 (entryValid_mark a Ha));
      [reflexivity | | reflexivity].
    rewrite framePtr_mark, shiftl_pageBits, l1Index_bit, B10 by assumption.
    apply Hcell; [simpl; lia | exact Ha1].
  - intros B15 B10.
    assert (G0 : getitem (memory s) (Z.shiftl r pageBits + l0Index va)
                 = Ok (Z.lor 0x80 a)).
    { rewrite shiftl_pageBits, l0Index_bit, B15. simpl. rewrite Z.add_0_r.
      apply Hcell; [lia | assumption]. }
    assert (G1 : getitem (memory s)
                   (Z.shiftl (framePtr (Z.lor 0x80 a)) pageBits + l1Index va)
                 = Ok (Z.lor 0x80 b)).
    { rewrite framePtr_mark, shiftl_pageBits, l1Index_bit, B10 by assumption.
      simpl. rewrite Z.add_0_r. apply Hcell; [lia | assumption]. }
    pose proof (l2Index_range va) as Hj.
    destruct (lookup_lt_is_Some_2 (memory s) (Z.to_nat (b * 32 + l2Index va)))
      as [e2 He2].
    { destruct Hs as [_ Hm]. rewrite Hm, physMem_nat. lia. }
    assert (G2 : getitem (memory s)
                   (Z.shiftl (framePtr (Z.lor 0x80 b)) pageBits + l2Index va)
                 = Ok e2).
    { rewrite framePtr_mark, shiftl_pageBits by assumption.
      apply Hcell; [lia | assumption]. }
    assert (Hbit : forall vp, l2Index vp = l2Index va <->
                              Z.testbit vp 5 = Z.testbit va 5).
    { intros vp. rewrite !l2Index_bit.
      destruct (Z.testbit vp 5), (Z.testbit va 5); simpl; split;
        intros; congruence || lia. }
    pose proof (Hleaf (l2Index va) e2 Hj He2) as Hvalid.
    split.
    + intros (vp & Hvp & Hb5).
      assert (V2 : entryValid e2 = true).
      { apply Hvalid. exists vp. split; [assumption | now apply Hbit]. }
      exists (framePtr e2). split; [apply framePtr_range |].
      rewrite (walk3_hit s pid va r Hl Hp _ _ _ G0 (entryValid_mark a Ha)
                 G1 (entryValid_mark b Hb) G2 V2).
      simpl. now rewrite physical_address.
    + intros Hnone.
      assert (V2 : entryValid e2 = false).
      { destruct (entryValid e2) eqn:V; [| reflexivity].
        exfalso. apply Hnone. destruct (proj1 Hvalid eq_refl) as (vp & Hvp & Hj').
        exists vp. split; [assumption | now apply Hbit]. }
      now rewrite (walk3_fault2 s pid va r Hl Hp _ _ _ G0 (entryValid_mark a Ha)
                     G1 (entryValid_mark b Hb) G2 V2).
Qed.

Lemma translations_after_run_witness :
  exists f, 0 <= f < physPages /\
    outcome (snd_state (procAlloc 8 1 1 (OS_init 3 draws_count))) 1 3
    = Ok (f * pageSize + 3 mod pageSize).
Proof.
  destruct (translations_after_run draws_count 8 1 0 [1]
              (snd_state (procAlloc 8 1 1 (OS_init 3 draws_count))) 3)
    as (_ & _ & H).
  - vm_compute. reflexivity.
  - destruct (H eq_refl eq_refl) as [Hhit _]. apply Hhit.
    exists 1. split; [apply list_elem_of_singleton; reflexivity | reflexivity].
Defined.

(** X17. Mapping a page is idempotent on the machine that a full run
    leaves: [allocVirtualPage] for any page below [vaPages] returns and
    takes no frame, a second call for the same page (with whatever frame)
    changes nothing, and a call for a page that the run had already
    allocated changes nothing either. *)
Theorem remapping_changes_nothing (rnd : nat -> Z) (fuel : nat) (pid : Z)
    (n : nat) (vps : list Z) (s : OS) (vp pp1 pp2 : Z) :
  procAlloc fuel pid (Z.of_nat (S n)) (OS_init 3 rnd) = Ok (vps, s) ->
  0 <= vp < vaPages ->
  exists s',
    allocVirtualPage pid vp pp1 s = Ok (tt, s') /\
    allocVirtualPage pid vp pp2 s' = Ok (tt, s') /\
    usedPages s' = usedPages s /\
    (vp ∈ vps -> s' = s).
Proof.
  intros Hrun Hvp.
  destruct (procAlloc_leaves rnd fuel pid n vps s Hrun)
    as (r & a & b & Hinv & Hleaf).
  clear Hrun.
  destruct (alloc_on_tree_full pid r a b _ s vp pp1 Hinv Hvp)
    as (s' & Hrun1 & Hinv' & (e & He & Ve) & _ & Hused & Hsame).
  destruct (alloc_on_tree_full pid r a b _ s' vp pp2 Hinv' Hvp)
    as (s'' & Hrun2 & _ & _ & _ & _ & Hsame').
  rewrite (Hsame' e He Ve) in Hrun2.
  exists s'. split; [assumption |]. split; [assumption |].
  split; [assumption |].
  intros Hin.
  destruct (page_number_indices vp Hvp) as (_ & _ & J2).
  destruct (lookup_lt_is_Some_2 (memory s) (Z.to_nat (b * 32 + l2Index vp)))
    as [e0 He0].
  { destruct Hinv as (_ & [_ Hm] & _ & ((_ & _ & Hb) & _) & _).
    rewrite Hm, physMem_nat. unfold physPages in Hb. lia. }
  apply (Hsame e0 He0). apply (Hleaf (l2Index vp) e0 J2 He0).
  exists vp. split; [assumption | reflexivity].
Qed.

Lemma remapping_changes_nothing_witness :
  exists s',
    allocVirtualPage 1 5 9 (snd_state (procAlloc 8 1 1 (OS_init 3 draws_count)))
      = Ok (tt, s') /\
    allocVirtualPage 1 5 10 s' = Ok (tt, s') /\
    usedPages s' = usedPages (snd_state (procAlloc 8 1 1 (OS_init 3 draws_count))) /\
    (5 ∈ [1] -> s' = snd_state (procAlloc 8 1 1 (OS_init 3 draws_count))).
Proof.
  apply (remapping_changes_nothing draws_count 8 1 0 [1]
           (snd_state (procAlloc 8 1 1 (OS_init 3 draws_count))) 5 9 10).
  - vm_compute. reflexivity.
  - unfold vaPages. lia.
Defined.

(** * The main program *)

Section Program.

Lemma randint_returns (a b : Z) (s : OS) :
  randint a b s
  = Ok (a + random s (drawn s) mod (b - a + 1), with_drawn s (S (drawn s))).
Proof. reflexivity. Qed.

Lemma report_sound (s : OS) (pid va r : Z) :
  outcome s pid va = Ok r -> sound_answer va (report r).
Proof.
  intros Hout. unfold report.
  destruct (Z.leb_spec 0 r) as [Hpos | Hneg]; simpl.
  - destruct (translate_outcomes s pid va r Hout)
      as [-> | [-> | [-> | [e ->]]]]; try lia.
    pose proof (framePtr_range e) as He.
    pose proof (Z.mod_pos_bound va 32 ltac:(lia)) as Ho.
    unfold physMem, pageSize, physPages in *.
    split; [lia |].
    rewrite Z.add_comm, Z.mod_add by lia. apply Z.mod_mod. lia.
  - destruct (translate_result_sign s pid va r Hout Hneg) as [-> | [-> | ->]];
      simpl; auto.
Qed.

Lemma translations_sound (solve : bool) (root : Z) (n : nat) : forall s : OS,
  shaped s -> pdbr s !! 1 = Some root -> 0 <= root < physPages ->
  exists lines s',
    translations solve n s = Ok (lines, s') /\
    length lines = n /\ Forall (sound_line solve) lines.
Proof.
  induction n as [| n IH]; intros s Hs Hp Hr.
  - exists [], s. repeat split. constructor.
  - simpl. unfold bind at 1. rewrite randint_returns.
    set (va := 0 + random s (drawn s) mod (vaSize - 1 - 0 + 1)).
    set (s1 := with_drawn s (S (drawn s))).
    assert (Hva : 0 <= va < vaSize).
    { unfold va. pose proof (Z.mod_pos_bound (random s (drawn s))
                               (vaSize - 1 - 0 + 1)).
      unfold vaSize, pageSize, vaPages in *. lia. }
    destruct (IH s1 Hs Hp Hr) as (rest & s' & Hrest & Hlen & Hall).
    destruct solve.
    + destruct (translate_no_exception s1 1 va root Hp Hr (proj2 Hs)) as [r Hout].
      exists (Solved va (report r) :: rest), s'.
      unfold bind, translate_in, lift, ret. rewrite Hout, Hrest.
      split; [reflexivity |]. split; [simpl; now rewrite Hlen |].
      constructor; [| assumption].
      split; [reflexivity |]. split; [assumption |].
      now apply (report_sound s1 1).
    + exists (Question va :: rest), s'.
      unfold bind, ret. rewrite Hrest.
      split; [reflexivity |]. split; [simpl; now rewrite Hlen |].
      constructor; [| assumption]. now split.
Qed.

End Program.

(** X18. The program runs to its end whenever the allocation of the pages
    returns: it prints the dump of the memory as the allocation left it and
    the root of process 1, then one line per requested address; every
    address lies in the virtual address space, and with [--solve] every
    answer is a physical address inside memory with the offset of the
    virtual address, or a fault at level 1, 2 or 3.  No translation raises. *)
Theorem program_output_is_sound (rnd : nat -> Z) (fuel : nat)
    (allocated num : Z) (solve : bool) (vps : list Z) (s1 : OS) :
  procAlloc fuel 1 allocated (OS_init 3 rnd) = Ok (vps, s1) ->
  exists root lines s',
    program fuel allocated num solve (OS_init 3 rnd)
      = Ok ((memoryDump s1, root, lines), s') /\
    pdbr s1 !! 1 = Some root /\ 0 <= root < physPages /\
    length lines = Z.to_nat num /\
    Forall (sound_line solve) lines.
Proof.
  intros Hrun.
  destruct (procAlloc_leaves_root fuel 1 allocated _ _ _
              (OS_init_shaped rnd 3) Hrun) as (Hs & _ & r & Hp & Hr).
  destruct (translations_sound solve r (Z.to_nat num) s1 Hs Hp Hr)
    as (lines & s' & Hlines & Hlen & Hall).
  exists r, lines, s'.
  unfold program, bind. rewrite Hrun. unfold pdbr_get. rewrite Hp, Hlines.
  repeat (split; [reflexivity || assumption |]). assumption.
Qed.

Lemma program_output_is_sound_witness :
  exists root lines s',
    program 8 3 4 true (OS_init 3 draws_count)
      = Ok ((memoryDump (snd_state (procAlloc 8 1 3 (OS_init 3 draws_count))),
             root, lines), s') /\
    pdbr (snd_state (procAlloc 8 1 3 (OS_init 3 draws_count))) !! 1 = Some root /\
    0 <= root < physPages /\
    length lines = Z.to_nat 4 /\
    Forall (sound_line true) lines.
Proof.
  destruct (procAlloc 8 1 3 (OS_init 3 draws_count)) as [[vps s1] | e] eqn:E.
  - exact (program_output_is_sound draws_count 8 3 4 true vps s1 E).
  - vm_compute in E. discriminate E.
Defined.
